(** * Mastery, streak and recommendation engine of ai-student-partner

    Shallow embedding of
    - [src/backend/routes/progress.js], route [POST /api/progress/submit-answer];
    - [src/backend/routes/recommendations.js], route [GET /api/recommendations];
    - the Progress and User schemas ([src/unnamed/part_002]).

    Numbers that the code keeps as JavaScript doubles (mastery, alpha,
    scores, day differences) are modelled as exact rationals [Q]; counters
    and timestamps (milliseconds since the epoch) as [Z].  Strings are
    [String.string] over ASCII. *)

From Stdlib Require Import ZArith QArith Qround Qminmax Lqa Lia List String Ascii Bool Sorted Permutation.
From Stdlib Require Floats.
Import ListNotations.
Open Scope Z_scope.

(* ------------------------------------------------------------------ *)
(** ** JavaScript built-ins used by the handlers *)
Module JS.

(** A value of the JSON request body: a string, or anything else
    (number, boolean, null, object, array, missing field).  None of the
    non-string values has a [split] or [toUpperCase] method. *)
Inductive JSVal := JStr (s : string) | JOther.

(** [String.prototype.toUpperCase] on ASCII text. *)
Definition upper_char (c : ascii) : ascii :=
  let n := nat_of_ascii c in
  if (97 <=? n)%nat && (n <=? 122)%nat then ascii_of_nat (n - 32) else c.

Fixpoint toUpperCase (s : string) : string :=
  match s with
  | EmptyString => EmptyString
  | String c r => String (upper_char c) (toUpperCase r)
  end.

(** [s.split('_Q')]: the pieces between successive occurrences of the
    separator, scanning from the left. *)
Definition cons_head (c : ascii) (l : list string) : list string :=
  match l with
  | [] => [String c EmptyString]
  | x :: xs => String c x :: xs
  end.

Fixpoint split_Q (s : string) : list string :=
  match s with
  | EmptyString => [EmptyString]
  | String c rest =>
      match rest with
      | EmptyString => [String c EmptyString]
      | String c' rest' =>
          if Ascii.eqb c "_" && Ascii.eqb c' "Q"
          then EmptyString :: split_Q rest'
          else cons_head c (split_Q rest)
      end
  end.

(** [parseInt(s)] with no radix: leading white space, an optional sign,
    an optional [0x]/[0X] prefix selecting radix 16, then the longest
    prefix of digits; [None] is [NaN]. *)
Definition is_ws (c : ascii) : bool :=
  let n := nat_of_ascii c in
  ((9 <=? n)%nat && (n <=? 13)%nat) || (n =? 32)%nat || (n =? 160)%nat.

Fixpoint trim_start (s : string) : string :=
  match s with
  | String c r => if is_ws c then trim_start r else s
  | EmptyString => EmptyString
  end.

Definition digit_val (c : ascii) : option Z :=
  let n := Z.of_nat (nat_of_ascii c) in
  if (48 <=? n) && (n <=? 57) then Some (n - 48)
  else if (97 <=? n) && (n <=? 122) then Some (n - 87)
  else if (65 <=? n) && (n <=? 90) then Some (n - 55)
  else None.

Fixpoint digits_prefix (radix : Z) (s : string) (acc : Z) (seen : bool) : option Z :=
  match s with
  | String c r =>
      match digit_val c with
      | Some d => if d <? radix then digits_prefix radix r (acc * radix + d) true
                  else if seen then Some acc else None
      | None => if seen then Some acc else None
      end
  | EmptyString => if seen then Some acc else None
  end.

Definition strip_sign (s : string) : Z * string :=
  match s with
  | String c r =>
      if Ascii.eqb c "-" then (-1, r)
      else if Ascii.eqb c "+" then (1, r) else (1, s)
  | EmptyString => (1, s)
  end.

Definition strip_radix (s : string) : Z * string :=
  match s with
  | String c (String x r) =>
      if Ascii.eqb c "0" && (Ascii.eqb x "x" || Ascii.eqb x "X") then (16, r) else (10, s)
  | _ => (10, s)
  end.

Definition parseInt (s : string) : option Z :=
  let '(sign, s1) := strip_sign (trim_start s) in
  let '(radix, s2) := strip_radix s1 in
  option_map (Z.mul sign) (digits_prefix radix s2 0 false).

(** [arr[i]] for a number [i] ([None] is [NaN]): only a non-negative
    integer below the length names an element; otherwise [undefined]. *)
Definition index {A} (l : list A) (i : option Z) : option A :=
  match i with
  | Some k => if 0 <=? k then nth_error l (Z.to_nat k) else None
  | None => None
  end.

(** [arr.slice(0, end)] for a number [end] ([None] is [NaN], read as 0):
    a negative end counts from the back. *)
Definition slice0 {A} (l : list A) (e : option Z) : list A :=
  let len := Z.of_nat (List.length l) in
  let k := match e with
           | None => 0
           | Some e => if e <? 0 then Z.max (len + e) 0 else Z.min e len
           end in
  firstn (Z.to_nat k) l.

(** [Array.prototype.sort] with a comparator is stable (ES2019); for a
    consistent comparator its result is the one of this insertion sort:
    [x] goes before the first [y] with [cmp x y < 0]. *)
Definition Qlt_bool (a b : Q) : bool := negb (Qle_bool b a).

Section Sort.
Context {A : Type} (cmp : A -> A -> Q).

Fixpoint insert (x : A) (l : list A) : list A :=
  match l with
  | [] => [x]
  | y :: ys => if Qlt_bool (cmp x y) 0 then x :: y :: ys else y :: insert x ys
  end.

Definition sort (l : list A) : list A := fold_left (fun acc x => insert x acc) l [].
End Sort.

(** A value of the JSON request body as Mongoose's [Number] cast sees
    it: [JNull] is [null] or a missing field (left [undefined], then
    defaulted to [null]); arrays and objects are [JCompound]. *)
Inductive JSON := JNull | JBool (b : bool) | JNum (q : Q) | JText (s : string) | JCompound.

(** A JavaScript number other than NaN. *)
Inductive Num := Fin (q : Q) | Inf (negative : bool).

(** The trailing half of [String.prototype.trim]. *)
Fixpoint trim_end (s : string) : string :=
  match s with
  | EmptyString => EmptyString
  | String c r =>
      match trim_end r with
      | EmptyString => if is_ws c then EmptyString else String c EmptyString
      | r' => String c r'
      end
  end.

Definition dec_digit (c : ascii) : option Z :=
  let n := Z.of_nat (nat_of_ascii c) in
  if (48 <=? n) && (n <=? 57) then Some (n - 48) else None.

(** The longest prefix of decimal digits: its value, its length and the
    rest of the string. *)
Fixpoint dec_digits (s : string) (acc : Z) (n : nat) : Z * nat * string :=
  match s with
  | String c r =>
      match dec_digit c with
      | Some d => dec_digits r (acc * 10 + d) (S n)
      | None => (acc, n, s)
      end
  | EmptyString => (acc, n, s)
  end.

(** A whole string of at least one digit of the radix. *)
Fixpoint radix_digits (radix : Z) (s : string) (acc : Z) (seen : bool) : option Z :=
  match s with
  | EmptyString => if seen then Some acc else None
  | String c r =>
      match digit_val c with
      | Some d => if d <? radix then radix_digits radix r (acc * radix + d) true else None
      | None => None
      end
  end.

(** [ExponentPart] of a [StrUnsignedDecimalLiteral], or nothing. *)
Definition exponent_part (s : string) : option Z :=
  match s with
  | EmptyString => Some 0
  | String c r =>
      if Ascii.eqb c "e" || Ascii.eqb c "E" then
        let '(sign, r1) := strip_sign r in
        match dec_digits r1 0 0 with
        | (x, S _, EmptyString) => Some (sign * x)
        | _ => None
        end
      else None
  end.

(** [StrUnsignedDecimalLiteral] other than [Infinity]: digits, an
    optional fraction, at least one digit in all, an optional exponent. *)
Definition unsigned_decimal (s : string) : option Q :=
  let '(ip, ni, r1) := dec_digits s 0 0 in
  let '(fp, nf, r2) :=
    match r1 with
    | String c r => if Ascii.eqb c "." then dec_digits r 0 0 else (0, O, r1)
    | EmptyString => (0, O, r1)
    end in
  if (ni + nf =? 0)%nat then None
  else option_map (fun e => (inject_Z (ip * 10 ^ Z.of_nat nf + fp)
                             * Qpower 10 (e - Z.of_nat nf))%Q)
                  (exponent_part r2).

Definition radix_of (x : ascii) : option Z :=
  if Ascii.eqb x "x" || Ascii.eqb x "X" then Some 16
  else if Ascii.eqb x "o" || Ascii.eqb x "O" then Some 8
  else if Ascii.eqb x "b" || Ascii.eqb x "B" then Some 2
  else None.

Definition signed_decimal (t : string) : option Num :=
  let '(sign, u) := strip_sign t in
  if String.eqb u "Infinity" then Some (Inf (sign <? 0))
  else option_map (fun q => Fin (inject_Z sign * q)%Q) (unsigned_decimal u).

(** [Number(s)] (StringToNumber): [None] is NaN.  A finite result is
    kept as the exact value of the literal; the double it rounds to is
    never read by the handlers. *)
Definition Number_of_string (s : string) : option Num :=
  let t := trim_end (trim_start s) in
  match t with
  | EmptyString => Some (Fin 0)
  | String c (String x r) =>
      if Ascii.eqb c "0" then
        match radix_of x with
        | Some b => option_map (fun v => Fin (inject_Z v)) (radix_digits b r 0 false)
        | None => signed_decimal t
        end
      else signed_decimal t
  | _ => signed_decimal t
  end.

(** Mongoose's cast of a value to a [Number] path ([castNumber]):
    [None] is a CastError, [Some None] stores [null].  [null] and [''] give
    [null]; a string or a boolean goes through [Number] and must not be
    NaN; an array or an object is rejected. *)
Definition castNumber (v : JSON) : option (option Num) :=
  match v with
  | JNull => Some None
  | JText EmptyString => Some None
  | JText s => option_map Some (Number_of_string s)
  | JBool b => Some (Some (Fin (if b then 1 else 0)))
  | JNum q => Some (Some (Fin q))
  | JCompound => None
  end.

(** *** Dates *)

Definition msPerDay : Z := 1000 * 60 * 60 * 24.

(** The host's time zone: [z_offset0] (local time minus UTC, in ms)
    holds before the first change; a change [(t, o)] sets the offset to
    [o] from the UTC instant [t] on.  Changes are listed by increasing
    [t]. *)
Record Zone := { z_offset0 : Z; z_changes : list (Z * Z) }.

Fixpoint offset_from (o : Z) (changes : list (Z * Z)) (u : Z) : Z :=
  match changes with
  | [] => o
  | (t, o') :: cs => if t <=? u then offset_from o' cs u else o
  end.

(** The offset in effect at the UTC instant [u]. *)
Definition offset_at (z : Zone) (u : Z) : Z := offset_from (z_offset0 z) (z_changes z) u.

(** [LocalTime(u)]. *)
Definition LocalTime (z : Zone) (u : Z) : Z := u + offset_at z u.

(** The instants whose local time is [tl]: one candidate per stretch of
    constant offset, kept when it falls inside that stretch. *)
Fixpoint candidates (lo : option Z) (o : Z) (changes : list (Z * Z)) (tl : Z) : list Z :=
  let u := tl - o in
  let from_lo := match lo with None => true | Some l => l <=? u end in
  match changes with
  | [] => if from_lo then [u] else []
  | (t, o') :: cs => (if from_lo && (u <? t) then [u] else []) ++ candidates (Some t) o' cs tl
  end.

(** For a local time skipped by a change [(t, o')] from the offset [o],
    the offset before that change. *)
Fixpoint gap_offset (o : Z) (changes : list (Z * Z)) (tl : Z) : Z :=
  match changes with
  | [] => o
  | (t, o') :: cs => if (t + o <=? tl) && (tl <? t + o') then o else gap_offset o' cs tl
  end.

(** [UTC(tl)] for a local time [tl]: the earliest instant with that local
    time; a skipped local time is read with the offset before the change. *)
Definition UTC (z : Zone) (tl : Z) : Z :=
  match candidates None (z_offset0 z) (z_changes z) tl with
  | u :: us => fold_left Z.min us u
  | [] => tl - gap_offset (z_offset0 z) (z_changes z) tl
  end.

(** A zone with the fixed offset [o] (no daylight saving time). *)
Definition fixed_zone (o : Z) : Zone := {| z_offset0 := o; z_changes := [] |}.

Definition maxTime : Z := 8640000000000000.

(** [TimeClip]: [None] is NaN. *)
Definition TimeClip (t : Z) : option Z := if Z.abs t <=? maxTime then Some t else None.

(** [new Date(t).setHours(0, 0, 0, 0)]: the instant of the local midnight
    that starts the local day of [t]; [None] is NaN. *)
Definition setHours0 (z : Zone) (t : Z) : option Z :=
  match TimeClip t with
  | None => None
  | Some t => let lt := LocalTime z t in TimeClip (UTC z (lt - lt mod msPerDay))
  end.

End JS.
Import JS.

(* ------------------------------------------------------------------ *)
(** ** The question bank ([data/subjects.json]) and its lookup *)
Module Bank.

Record Question := { answer : string }.
Record Topic := { topic_id : string; title : string; questions : list Question }.
Record Subject := { subject_name : string; topics : list Topic }.

(** The [for (const subject of data.subjects)] loop with
    [subject.topics.find(t => t.topic_id === topicId)] and [break]. *)
Fixpoint find_topic (subjects : list Subject) (topicId : string) : option (Subject * Topic) :=
  match subjects with
  | [] => None
  | s :: ss =>
      match find (fun t => String.eqb (topic_id t) topicId) (topics s) with
      | Some t => Some (s, t)
      | None => find_topic ss topicId
      end
  end.

(** [parseInt(questionId.split('_Q')[1]) - 1]; a missing piece is
    [undefined], which [parseInt] reads as the string ["undefined"]. *)
Definition qIndex (questionId : string) : option Z :=
  option_map (fun n => n - 1) (parseInt (nth 1 (split_Q questionId) "undefined"%string)).

(** Outcome of the lookup loop and the [if (!correctAnswer)] test. *)
Inductive Lookup :=
  | Found (correctAnswer subjectName topicTitle topicId questionId : string)
  | Missing
  | TypeError.

Definition resolve (subjects : list Subject) (topicId questionId : JSVal) : Lookup :=
  match topicId with
  | JOther => Missing
  | JStr tid =>
      match find_topic subjects tid with
      | None => Missing
      | Some (s, t) =>
          match questionId with
          | JOther => TypeError
          | JStr qid =>
              match index (questions t) (qIndex qid) with
              | Some q => if String.eqb (answer q) "" then Missing
                          else Found (answer q) (subject_name s) (title t) tid qid
              | None => Missing
              end
          end
      end
  end.

End Bank.
Import Bank.

(* ------------------------------------------------------------------ *)
(** ** Documents and collections (Attempt, Progress, User) *)
Module Store.

Record Attempt := {
  att_userId : nat;
  att_topicId : string;
  att_questionId : string;
  att_userAnswer : string;
  att_correctAnswer : string;
  att_isCorrect : bool;
  att_timeTaken : option Num;   (* [null] or the cast number *)
  att_timestamp : Z
}.

(** The Progress schema; [emaAlpha] defaults to 0.3. *)
Record Progress := {
  p_userId : nat;
  p_topicId : string;
  subjectName : string;
  topicTitle : string;
  mastery : Q;
  attempts : Z;
  corrects : Z;
  lastReview : option Z;
  emaAlpha : Q
}.

(** [user.stats] of the User schema. *)
Record Stats := {
  totalAttempts : Z;
  totalCorrect : Z;
  currentStreak : Z;
  longestStreak : Z;
  lastStudyDate : option Z
}.

Record User := { u_id : nat; stats : Stats }.

Record DB := {
  db_attempts : list Attempt;
  db_progress : list Progress;
  db_users : list User
}.

Definition same_key (uid : nat) (tid : string) (p : Progress) : bool :=
  Nat.eqb (p_userId p) uid && String.eqb (p_topicId p) tid.

(** [Progress.findOne({ userId, topicId })]. *)
Definition find_progress (db : DB) (uid : nat) (tid : string) : option Progress :=
  find (same_key uid tid) (db_progress db).

(** [progress.save()] writes the document over the stored one. *)
Fixpoint save_progress (p : Progress) (l : list Progress) : list Progress :=
  match l with
  | [] => [p]
  | q :: qs => if same_key (p_userId p) (p_topicId p) q then p :: qs
               else q :: save_progress p qs
  end.

Definition find_user (db : DB) (uid : nat) : option User :=
  find (fun u => Nat.eqb (u_id u) uid) (db_users db).

Fixpoint save_user (u : User) (l : list User) : list User :=
  match l with
  | [] => [u]
  | v :: vs => if Nat.eqb (u_id v) (u_id u) then u :: vs else v :: save_user u vs
  end.

(** A request runs against the database as a state monad with failure:
    [None] is an exception thrown by an [await]; every write that
    completed before it stays in the database (there is no transaction). *)
Definition M (A : Type) : Type := DB -> option A * DB.

Definition ret {A} (a : A) : M A := fun db => (Some a, db).

Definition bind {A B} (m : M A) (k : A -> M B) : M B :=
  fun db => match m db with
            | (Some a, db') => k a db'
            | (None, db') => (None, db')
            end.

Definition throw {A} : M A := fun db => (None, db).

Notation "x <- m ;; k" := (bind m (fun x => k))
  (at level 61, m at next level, right associativity).

(** Storage operations that may be unavailable (a rejected promise).
    [FUserSave] also covers a rejection by a validator of a User field not
    modelled here (name, email, ...). *)
Inductive Fault := FAttemptCreate | FProgressFind | FProgressCreate
                 | FProgressSave | FUserFind | FUserSave.

Record Env := {
  subjects : list Subject;      (* the loaded [subjects.json] *)
  fails : Fault -> bool;        (* which storage calls reject *)
  now : Z;                      (* [new Date()] during the request, in ms *)
  tz : Zone                     (* the host's time zone *)
}.

(** The [required] validator of a String path: a non-empty string. *)
Definition nonempty (s : string) : bool := negb (String.eqb s "").

(** The Attempt schema's validators: [topicId], [questionId],
    [userAnswer] and [correctAnswer] are required strings. *)
Definition attempt_valid (a : Attempt) : bool :=
  nonempty (att_topicId a) && nonempty (att_questionId a)
  && nonempty (att_userAnswer a) && nonempty (att_correctAnswer a).

(** The Progress schema's validators: [topicId], [subjectName] and
    [topicTitle] are required strings, [mastery] has [min: 0, max: 1].
    [save] runs them on every path of a loaded document as well. *)
Definition progress_valid (p : Progress) : bool :=
  nonempty (p_topicId p) && nonempty (subjectName p) && nonempty (topicTitle p)
  && Qle_bool 0 (mastery p) && Qle_bool (mastery p) 1.

Definition attempt_create (env : Env) (a : Attempt) : M unit :=
  fun db => if fails env FAttemptCreate || negb (attempt_valid a) then (None, db)
            else (Some tt, {| db_attempts := db_attempts db ++ [a];
                              db_progress := db_progress db;
                              db_users := db_users db |}).

Definition progress_findOne (env : Env) (uid : nat) (tid : string) : M (option Progress) :=
  fun db => if fails env FProgressFind then (None, db)
            else (Some (find_progress db uid tid), db).

Definition progress_create (env : Env) (p : Progress) : M Progress :=
  fun db => if fails env FProgressCreate || negb (progress_valid p) then (None, db)
            else (Some p, {| db_attempts := db_attempts db;
                             db_progress := db_progress db ++ [p];
                             db_users := db_users db |}).

Definition progress_save (env : Env) (p : Progress) : M unit :=
  fun db => if fails env FProgressSave || negb (progress_valid p) then (None, db)
            else (Some tt, {| db_attempts := db_attempts db;
                              db_progress := save_progress p (db_progress db);
                              db_users := db_users db |}).

Definition user_findById (env : Env) (uid : nat) : M (option User) :=
  fun db => if fails env FUserFind then (None, db) else (Some (find_user db uid), db).

Definition user_save (env : Env) (u : User) : M unit :=
  fun db => if fails env FUserSave then (None, db)
            else (Some tt, {| db_attempts := db_attempts db;
                              db_progress := db_progress db;
                              db_users := save_user u (db_users db) |}).

End Store.
Import Store.

(* ------------------------------------------------------------------ *)
(** ** [POST /api/progress/submit-answer] *)
Module Submit.

Record Request := {
  req_userId : nat;            (* [req.user._id], set by [protect] *)
  topicId : JSVal;
  questionId : JSVal;
  userAnswer : JSVal;
  timeTaken : JSON
}.

Inductive Response :=
  | Ok (isCorrect : bool) (correctAnswer : string)
       (mastery : Q) (attempts corrects : Z) (userStats : Stats)
  | NotFound                   (* 404, 'Question not found' *)
  | ServerError.               (* 500, [error.message] *)

(** [Progress.create] on a first attempt. *)
Definition fresh_progress (uid : nat) (tid sname ttitle : string) : Progress :=
  {| p_userId := uid; p_topicId := tid; subjectName := sname; topicTitle := ttitle;
     mastery := 2 # 10; attempts := 0; corrects := 0; lastReview := None;
     emaAlpha := 3 # 10 |}.

(** [alpha * (isCorrect ? 1 : 0) + (1 - alpha) * progress.mastery]. *)
Definition newMastery (alpha : Q) (isCorrect : bool) (prior : Q) : Q :=
  (alpha * (if isCorrect then 1 else 0) + (1 - alpha) * prior)%Q.

(** Lines 89-95: the EMA step and the counters. *)
Definition update_progress (now : Z) (isCorrect : bool) (progress : Progress) : Progress :=
  {| p_userId := p_userId progress; p_topicId := p_topicId progress;
     subjectName := subjectName progress; topicTitle := topicTitle progress;
     mastery := newMastery (emaAlpha progress) isCorrect (mastery progress);
     attempts := attempts progress + 1;
     corrects := corrects progress + (if isCorrect then 1 else 0);
     lastReview := Some now;
     emaAlpha := emaAlpha progress |}.

(** Lines 100-101. *)
Definition count_answer (isCorrect : bool) (st : Stats) : Stats :=
  {| totalAttempts := totalAttempts st + 1;
     totalCorrect := totalCorrect st + (if isCorrect then 1 else 0);
     currentStreak := currentStreak st; longestStreak := longestStreak st;
     lastStudyDate := lastStudyDate st |}.

(** Lines 104-119.  [lastStudyDate ? ... : null] tests a Date object,
    always truthy; [if (lastStudy)] then tests a number, and [null], NaN
    and 0 are falsy.  With [today] NaN, [daysDiff] is NaN and neither test
    holds. *)
Definition updateStreak (z : Zone) (now : Z) (st : Stats) : Stats :=
  let today := setHours0 z now in
  let lastStudy := match lastStudyDate st with Some t => setHours0 z t | None => None end in
  let current :=
    match lastStudy with
    | Some ls =>
        if negb (ls =? 0) then
          match today with
          | Some td =>
              let daysDiff := (inject_Z (td - ls) / inject_Z msPerDay)%Q in
              if Qeq_bool daysDiff 1 then currentStreak st + 1
              else if Qlt_bool 1 daysDiff then 1
              else currentStreak st
          | None => currentStreak st
          end
        else 1
    | None => 1
    end in
  {| totalAttempts := totalAttempts st; totalCorrect := totalCorrect st;
     currentStreak := current;
     longestStreak := Z.max (longestStreak st) current;
     lastStudyDate := Some now |}.

(** The body of the [try] block.  The Socket.IO [emit] touches no
    collection and is left out. *)
Definition submit_body (env : Env) (req : Request) : M Response :=
  let uid := req_userId req in
  match resolve (subjects env) (topicId req) (questionId req) with
  | TypeError => throw
  | Missing => ret NotFound
  | Found correctAnswer sname ttitle tid qid =>
      match userAnswer req with
      | JOther => throw
      | JStr ua =>
          let isCorrect := String.eqb (toUpperCase ua) (toUpperCase correctAnswer) in
          (* [Attempt.create] first casts [timeTaken] to a Number; a
             CastError rejects it before anything is written. *)
          match castNumber (timeTaken req) with
          | None => throw
          | Some tm =>
          _ <- attempt_create env
                 {| att_userId := uid; att_topicId := tid; att_questionId := qid;
                    att_userAnswer := ua; att_correctAnswer := correctAnswer;
                    att_isCorrect := isCorrect; att_timeTaken := tm;
                    att_timestamp := now env |} ;;
          found <- progress_findOne env uid tid ;;
          progress <- match found with
                      | Some p => ret p
                      | None => progress_create env (fresh_progress uid tid sname ttitle)
                      end ;;
          let progress' := update_progress (now env) isCorrect progress in
          _ <- progress_save env progress' ;;
          user <- user_findById env uid ;;
          match user with
          | None => throw            (* [user.stats] of [null] *)
          | Some u =>
              let u' := {| u_id := u_id u;
                           stats := updateStreak (tz env) (now env)
                                      (count_answer isCorrect (stats u)) |} in
              _ <- user_save env u' ;;
              ret (Ok isCorrect correctAnswer (mastery progress')
                      (attempts progress') (corrects progress')
                      (stats u'))
          end
          end
      end
  end.

(** The [try]/[catch]: an exception becomes a 500 response. *)
Definition submit_answer (env : Env) (req : Request) (db : DB) : Response * DB :=
  match submit_body env req db with
  | (Some r, db') => (r, db')
  | (None, db') => (ServerError, db')
  end.

(** The record the EMA step starts from: the stored one, or the one that
    [Progress.create] materialises on a first attempt. *)
Definition prior_progress (db : DB) (uid : nat) (tid sname ttitle : string) : Progress :=
  match find_progress db uid tid with
  | Some p => p
  | None => fresh_progress uid tid sname ttitle
  end.

End Submit.
Import Submit.

(** ** Line 90 in binary64 *)
Module Doubles.
Import Floats.
Local Open Scope float_scope.

(** [alpha * (isCorrect ? 1 : 0) + (1 - alpha) * progress.mastery] as the
    engine evaluates it: every operation rounds to the nearest double. *)
Definition newMastery_double (alpha : float) (isCorrect : bool) (prior : float) : float :=
  alpha * (if isCorrect then 1 else 0) + (1 - alpha) * prior.

End Doubles.
Import Doubles.

(* ------------------------------------------------------------------ *)
(** ** [GET /api/recommendations] *)
Module Recommend.

Record TopicInfo := { ti_topicId : string; ti_title : string; ti_subjectName : string }.

(** [getAllTopicIds]: every topic of every subject, in file order. *)
Definition getAllTopicIds (subjects : list Subject) : list TopicInfo :=
  flat_map (fun s => map (fun t => {| ti_topicId := topic_id t; ti_title := title t;
                                      ti_subjectName := subject_name s |}) (topics s))
           subjects.

Record Score := {
  s_topicId : string;
  s_title : string;
  s_subjectName : string;
  s_mastery : Q;
  score : Q;
  daysSinceLastReview : Z;
  recentPerformance : option Q
}.

(** [new Map(userProgress.map(p => [p.topicId, p])).get(id)]: a later
    entry with the same key overwrites an earlier one. *)
Definition progressMap_get (userProgress : list Progress) (tid : string) : option Progress :=
  find (fun p => String.eqb (p_topicId p) tid) (rev userProgress).

Definition Math_round (x : Q) : Z := Qfloor (x + (1 # 2)).

Definition daysSince (now : Z) (lastReview : option Z) : Q :=
  match lastReview with
  | Some t => (inject_Z (now - t) / inject_Z msPerDay)%Q
  | None => 999%Q
  end.

Definition recencyFactor (ds : Q) : Q := (1 + (1 # 2) * Qmin (ds / 30) 2)%Q.

Definition strugglingBonus (recentCorrect recentTotal : Z) : Q :=
  if (0 <? recentTotal)
     && Qlt_bool (inject_Z recentCorrect / inject_Z recentTotal) (4 # 10)
  then 3 # 10 else 0.

(** The body of [for (const topic of allTopics)]. *)
Definition score_topic (now : Z) (userProgress : list Progress)
    (recentAttempts : list Attempt) (topic : TopicInfo) : Score :=
  let progress := progressMap_get userProgress (ti_topicId topic) in
  let m := match progress with Some p => mastery p | None => 2 # 10 end in
  let lr := match progress with Some p => lastReview p | None => None end in
  let ds := daysSince now lr in
  let baseScore := ((1 - m) * recencyFactor ds)%Q in
  let topicAttempts := filter (fun a => String.eqb (att_topicId a) (ti_topicId topic))
                              recentAttempts in
  let recentCorrect := Z.of_nat (List.length (filter att_isCorrect (firstn 5 topicAttempts))) in
  let recentTotal := Z.min (Z.of_nat (List.length topicAttempts)) 5 in
  {| s_topicId := ti_topicId topic; s_title := ti_title topic;
     s_subjectName := ti_subjectName topic; s_mastery := m;
     score := (baseScore + strugglingBonus recentCorrect recentTotal)%Q;
     daysSinceLastReview := Math_round ds;
     recentPerformance :=
       if 0 <? recentTotal
       then Some (inject_Z recentCorrect / inject_Z recentTotal * 100)%Q
       else None |}.

(** [scores.sort((a, b) => b.score - a.score)]. *)
Definition by_score_desc (a b : Score) : Q := (score b - score a)%Q.

(** The handler, from the query results: [userProgress] is
    [Progress.find({ userId })], [userAttempts] the user's attempts newest
    first ([.sort({ timestamp: -1 })]); [n] is [req.query.n], absent
    meaning the default [3]. *)
Definition recommendations (subjects : list Subject) (userProgress : list Progress)
    (userAttempts : list Attempt) (now : Z) (n : option string) : list Score :=
  let allTopics := getAllTopicIds subjects in
  let recentAttempts := firstn 100 userAttempts in
  let scores := map (score_topic now userProgress recentAttempts) allTopics in
  let sorted := sort by_score_desc scores in
  slice0 sorted (parseInt (match n with Some s => s | None => "3"%string end)).

End Recommend.
Import Recommend.


(* ------------------------------------------------------------------ *)
(** ** The writes of a submission *)
Module Writes.

(** The four persistence calls of the handler that change a collection. *)
Inductive Write :=
  | WAttempt (a : Attempt)                (* [Attempt.create] *)
  | WProgressCreate (p : Progress)        (* [Progress.create] *)
  | WProgressSave (p : Progress)          (* [progress.save()] *)
  | WUserSave (u : User).                 (* [user.save()] *)

Definition apply_write (db : DB) (w : Write) : DB :=
  match w with
  | WAttempt a => {| db_attempts := db_attempts db ++ [a]; db_progress := db_progress db;
                     db_users := db_users db |}
  | WProgressCreate p => {| db_attempts := db_attempts db;
                            db_progress := db_progress db ++ [p]; db_users := db_users db |}
  | WProgressSave p => {| db_attempts := db_attempts db;
                          db_progress := save_progress p (db_progress db);
                          db_users := db_users db |}
  | WUserSave u => {| db_attempts := db_attempts db; db_progress := db_progress db;
                      db_users := save_user u (db_users db) |}
  end.

Definition apply_writes (ws : list Write) (db : DB) : DB := fold_left apply_write ws db.

(** The writes a submission issues, in order, when no storage call
    fails and every document passes its validators: none for an
    unresolved question, a non-string answer or a [timeTaken] that does
    not cast to a Number. *)
Definition planned_writes (env : Env) (req : Request) (db : DB) : list Write :=
  match resolve (subjects env) (topicId req) (questionId req), userAnswer req with
  | Found correctAnswer sname ttitle tid qid, JStr ua =>
      let uid := req_userId req in
      let isCorrect := String.eqb (toUpperCase ua) (toUpperCase correctAnswer) in
      let prog := prior_progress db uid tid sname ttitle in
      match castNumber (timeTaken req) with
      | None => []
      | Some tm =>
      [WAttempt {| att_userId := uid; att_topicId := tid; att_questionId := qid;
                   att_userAnswer := ua; att_correctAnswer := correctAnswer;
                   att_isCorrect := isCorrect; att_timeTaken := tm;
                   att_timestamp := now env |}]
      ++ match find_progress db uid tid with
         | Some _ => []
         | None => [WProgressCreate prog]
         end
      ++ [WProgressSave (update_progress (now env) isCorrect prog)]
      ++ match find_user db uid with
         | Some u => [WUserSave {| u_id := u_id u;
                                   stats := updateStreak (tz env) (now env)
                                              (count_answer isCorrect (stats u)) |}]
         | None => []
         end
      end
  | _, _ => []
  end.

End Writes.
Import Writes.

(* ------------------------------------------------------------------ *)
(** ** The quiz routes ([src/unnamed/part_001], [/api/quiz]) *)
Module Quiz.

(** The decimal text of a non-negative integer, as a template literal
    [`${i}`] writes it. *)
Definition digit_char (d : nat) : ascii := ascii_of_nat (48 + d).

Fixpoint string_of_nat_aux (fuel n : nat) (acc : string) : string :=
  match fuel with
  | O => acc
  | S f =>
      let acc' := String (digit_char (n mod 10)) acc in
      if (n / 10 =? 0)%nat then acc' else string_of_nat_aux f (n / 10) acc'
  end.

Definition string_of_nat (n : nat) : string := string_of_nat_aux (S n) n "".

(** [`${topic.topic_id}_Q${idx + 1}`]. *)
Definition question_id (tid : string) (idx : nat) : string :=
  (tid ++ "_Q" ++ string_of_nat (S idx))%string.

(** [arr.map((x, idx) => f(idx, x))]. *)
Fixpoint mapi_from {A B} (f : nat -> A -> B) (i : nat) (l : list A) : list B :=
  match l with
  | [] => []
  | x :: xs => f i x :: mapi_from f (S i) xs
  end.

(** [GET /api/quiz/topics/:topicId]: the topic with every question, its
    id and (as the route sends it) its answer. *)
Inductive TopicDetail :=
  | TopicMissing                                  (* 404, 'Topic not found' *)
  | TopicFound (topicId title subjectName : string)
               (questions : list (string * Question)).

Definition topic_detail (subjects : list Subject) (topicId : string) : TopicDetail :=
  match find_topic subjects topicId with
  | None => TopicMissing
  | Some (s, t) =>
      TopicFound (topic_id t) (title t) (subject_name s)
        (mapi_from (fun idx q => (question_id (topic_id t) idx, q)) 0 (questions t))
  end.

(** [req.query.answered]: missing, a string, or something else that the
    query parser builds (an array for a repeated key, an object). *)
Inductive QueryVal := QMissing | QStr (s : string) | QOther.

(** [s.split(',')]. *)
Fixpoint split_comma (s : string) : list string :=
  match s with
  | EmptyString => [EmptyString]
  | String c r => if Ascii.eqb c "," then EmptyString :: split_comma r
                  else cons_head c (split_comma r)
  end.

(** [req.query.answered ? req.query.answered.split(',') : []]; [None]
    is the [TypeError] of [split] on a non-string. *)
Definition answered_ids (answered : QueryVal) : option (list string) :=
  match answered with
  | QMissing => Some []
  | QStr EmptyString => Some []
  | QStr s => Some (split_comma s)
  | QOther => None
  end.

(** [topic.questions.map((q, idx) => idx)
      .filter(idx => !answeredIds.includes(`${topic.topic_id}_Q${idx + 1}`))]. *)
Definition available_indices (t : Topic) (ids : list string) : list nat :=
  filter (fun idx => negb (existsb (String.eqb (question_id (topic_id t) idx)) ids))
         (seq 0 (List.length (questions t))).

(** [GET /api/quiz/topics/:topicId/question]. *)
Inductive QuizQuestion :=
  | NoTopic                                       (* 404, 'Topic not found' *)
  | Completed (totalQuestions : nat)              (* every question answered *)
  | Picked (id topicId topicTitle subjectName : string) (question : Question)
           (questionIndex : nat)
  | QuizError.                                    (* 500 *)

(** [random] is the value of [Math.random()], in [[0, 1)]. *)
Definition random_question (subjects : list Subject) (topicId : string)
    (answered : QueryVal) (random : Q) : QuizQuestion :=
  match find_topic subjects topicId with
  | None => NoTopic
  | Some (s, t) =>
      match answered_ids answered with
      | None => QuizError
      | Some ids =>
          let avail := available_indices t ids in
          match avail with
          | [] => Completed (List.length (questions t))
          | _ =>
              let k := Qfloor (random * inject_Z (Z.of_nat (List.length avail))) in
              match index avail (Some k) with
              | None => QuizError
              | Some randomIndex =>
                  match nth_error (questions t) randomIndex with
                  | None => QuizError
                  | Some q => Picked (question_id (topic_id t) randomIndex) (topic_id t)
                                     (title t) (subject_name s) q randomIndex
                  end
              end
          end
      end
  end.

End Quiz.
Import Quiz.

(* ------------------------------------------------------------------ *)
(** ** The other progress routes ([src/backend/routes/progress.js]) *)
Module ProgressRoutes.

(** [GET /api/progress/topic/:topicId], field [progress]: the stored
    document, or [{ mastery: 0.2, attempts: 0, corrects: 0 }]. *)
Inductive TopicProgress := StoredProgress (p : Progress) | DefaultProgress.

Definition topic_progress (db : DB) (uid : nat) (tid : string) : TopicProgress :=
  match find_progress db uid tid with
  | Some p => StoredProgress p
  | None => DefaultProgress
  end.

Definition view_mastery (v : TopicProgress) : Q :=
  match v with StoredProgress p => mastery p | DefaultProgress => 2 # 10 end.
Definition view_attempts (v : TopicProgress) : Z :=
  match v with StoredProgress p => attempts p | DefaultProgress => 0 end.
Definition view_corrects (v : TopicProgress) : Z :=
  match v with StoredProgress p => corrects p | DefaultProgress => 0 end.

(** [Progress.deleteOne({ userId, topicId })]: the first matching
    document goes. *)
Fixpoint delete_first (uid : nat) (tid : string) (l : list Progress) : list Progress :=
  match l with
  | [] => []
  | p :: ps => if same_key uid tid p then ps else p :: delete_first uid tid ps
  end.

(** [DELETE /api/progress/topic/:topicId/reset]. *)
Definition reset_topic (db : DB) (uid : nat) (tid : string) : DB :=
  {| db_attempts := db_attempts db;
     db_progress := delete_first uid tid (db_progress db);
     db_users := db_users db |}.

(** [Progress.find({ userId })]. *)
Definition user_progress (db : DB) (uid : nat) : list Progress :=
  filter (fun p => Nat.eqb (p_userId p) uid) (db_progress db).

(** [progress.reduce((acc, p) => acc + p.mastery, 0) / progress.length || 0]:
    with no document the quotient is [0 / 0], [NaN], and [NaN || 0] is [0]. *)
Definition averageMastery (progress : list Progress) : Q :=
  let sum := fold_left (fun acc p => (acc + mastery p)%Q) progress 0%Q in
  match List.length progress with
  | O => 0
  | len => (sum / inject_Z (Z.of_nat len))%Q
  end.

(** [GET /api/progress/my-progress], fields [totalTopics] and
    [averageMastery] (neither depends on the [mastery: -1] order). *)
Definition my_progress_summary (db : DB) (uid : nat) : nat * Q :=
  let progress := user_progress db uid in
  (List.length progress, averageMastery progress).

(** The store invariants that the schema and the handlers aim at: one
    Progress document per (user, topic) (the unique compound index), and
    masteries and smoothing factors in [[0, 1]]. *)
Definition progress_key (p : Progress) : nat * string := (p_userId p, p_topicId p).

Definition keys_unique (db : DB) : Prop := NoDup (map progress_key (db_progress db)).

Definition values_in_range (db : DB) : Prop :=
  Forall (fun p => (0 <= mastery p <= 1)%Q /\ (0 <= emaAlpha p <= 1)%Q) (db_progress db).

End ProgressRoutes.
Import ProgressRoutes.

(* ------------------------------------------------------------------ *)
(** ** [GET /api/recommendations/weak-areas] and [/ready-for-review] *)
Module ReviewRoutes.

(** The database sorts with [.sort({ ... })]; the model takes the
    reordering it applies as the argument [order]. *)
Definition weak_filter (uid : nat) (p : Progress) : bool :=
  Nat.eqb (p_userId p) uid && Qlt_bool (mastery p) (1 # 2) && (3 <=? attempts p).

(** [Progress.find({ userId, mastery: { $lt: 0.5 }, attempts: { $gte: 3 } })
      .sort({ mastery: 1 }).limit(5)]. *)
Definition weak_areas (order : list Progress -> list Progress) (db : DB) (uid : nat)
    : list Progress :=
  firstn 5 (order (filter (weak_filter uid) (db_progress db))).

(** [lastReview: { $lt: sevenDaysAgo }] matches no [null]. *)
Definition ready_filter (uid : nat) (sevenDaysAgo : Z) (p : Progress) : bool :=
  Nat.eqb (p_userId p) uid && Qle_bool (1 # 2) (mastery p)
  && match lastReview p with Some t => t <? sevenDaysAgo | None => false end.

(** [now] is [Date.now()]. *)
Definition ready_for_review (order : list Progress -> list Progress) (db : DB) (uid : nat)
    (now : Z) : list Progress :=
  let sevenDaysAgo := now - 7 * 24 * 60 * 60 * 1000 in
  firstn 5 (order (filter (ready_filter uid sevenDaysAgo) (db_progress db))).

(** One reordering the database may apply: stable ascending by [key]. *)
Definition order_by (key : Progress -> Q) (l : list Progress) : list Progress :=
  sort (fun a b => (key a - key b)%Q) l.

(** The key of [.sort({ lastReview: 1 })] on the records the filter keeps
    (all of them have a [lastReview]). *)
Definition review_key (p : Progress) : Q :=
  match lastReview p with Some t => inject_Z t | None => 0%Q end.

End ReviewRoutes.
Import ReviewRoutes.

(* ------------------------------------------------------------------ *)
(** ** [GET /api/users/stats] ([src/unnamed/part_000]) *)
Module UserStatsRoute.

Record UserStatsView := {
  overallAccuracy : Z;
  v_totalAttempts : nat;
  correctAttempts : nat;
  topicsStudied : nat;
  v_currentStreak : Z;
  v_longestStreak : Z
}.

(** The counts, [overallAccuracy] and the streaks from [req.user.stats];
    the week activity and the daily trend are left out. *)
Definition user_stats (db : DB) (user : User) : UserStatsView :=
  let uid := u_id user in
  let totalAttempts := List.length (filter (fun a => Nat.eqb (att_userId a) uid) (db_attempts db)) in
  let correctAttempts :=
    List.length (filter (fun a => Nat.eqb (att_userId a) uid && att_isCorrect a) (db_attempts db)) in
  let overall :=
    if (0 <? totalAttempts)%nat
    then (inject_Z (Z.of_nat correctAttempts) / inject_Z (Z.of_nat totalAttempts) * 100)%Q
    else 0%Q in
  let topicsStudied :=
    List.length (filter (fun p => Nat.eqb (p_userId p) uid && (1 <=? attempts p))
                        (db_progress db)) in
  {| overallAccuracy := Math_round overall;
     v_totalAttempts := totalAttempts;
     correctAttempts := correctAttempts;
     topicsStudied := topicsStudied;
     v_currentStreak := currentStreak (stats user);
     v_longestStreak := longestStreak (stats user) |}.

End UserStatsRoute.
Import UserStatsRoute.

(* ------------------------------------------------------------------ *)
(** ** A small question bank and database to run the handlers on *)
Module Examples.

Definition bank : list Subject :=
  [ {| subject_name := "Mathematics";
       topics := [ {| topic_id := "math_algebra"; title := "Algebra";
                      questions := [ {| answer := "a " |}; {| answer := "B" |};
                                     {| answer := "" |} ] |};
                   {| topic_id := "math_geometry"; title := "Geometry";
                      questions := [ {| answer := "C" |} ] |} ] |} ].

Definition stats0 : Stats :=
  {| totalAttempts := 0; totalCorrect := 0; currentStreak := 0;
     longestStreak := 0; lastStudyDate := None |}.

Definition db0 : DB :=
  {| db_attempts := []; db_progress := []; db_users := [ {| u_id := 1; stats := stats0 |} ] |}.

Definition utc : Zone := fixed_zone 0.


(** 2023-11-15T00:00:00Z plus ten hours, in a UTC process. *)
Definition t0 : Z := 1700006400000 + 36000000.

Definition env0 : Env := {| subjects := bank; fails := fun _ => false; now := t0; tz := utc |}.

Definition request (tid qid ua : string) : Request :=
  {| req_userId := 1; topicId := JStr tid; questionId := JStr qid;
     userAnswer := JStr ua; timeTaken := JNull |}.

Definition req_ok : Request := request "math_algebra" "math_algebra_Q1" "a ".

(** The database and user stats after [req_ok] on [db0]. *)
Definition db_ok : DB := snd (submit_answer env0 req_ok db0).
Definition stats_ok : Stats := updateStreak utc t0 (count_answer true stats0).

Definition topic_algebra : TopicInfo :=
  {| ti_topicId := "math_algebra"; ti_title := "Algebra"; ti_subjectName := "Mathematics" |}.
Definition topic_geometry : TopicInfo :=
  {| ti_topicId := "math_geometry"; ti_title := "Geometry"; ti_subjectName := "Mathematics" |}.

(** Geometry, at mastery 0.2, reviewed one day before [t0]. *)
Definition prog_geometry : Progress :=
  {| p_userId := 1; p_topicId := "math_geometry"; subjectName := "Mathematics";
     topicTitle := "Geometry"; mastery := 2 # 10; attempts := 0; corrects := 0;
     lastReview := Some (t0 - msPerDay); emaAlpha := 3 # 10 |}.

(** Storage rejects the final [user.save()]. *)
Definition env_user_save_fails : Env :=
  {| subjects := bank;
     fails := fun f => match f with FUserSave => true | _ => false end;
     now := t0; tz := utc |}.

(** Algebra, at mastery 0.9 after four correct answers, reviewed ten days before [t0]. *)
Definition prog_algebra : Progress :=
  {| p_userId := 1; p_topicId := "math_algebra"; subjectName := "Mathematics";
     topicTitle := "Algebra"; mastery := 9 # 10; attempts := 4; corrects := 4;
     lastReview := Some (t0 - 10 * msPerDay); emaAlpha := 3 # 10 |}.

(** User 2's algebra, at mastery 0.1 after five wrong answers. *)
Definition prog_weak : Progress :=
  {| p_userId := 2; p_topicId := "math_algebra"; subjectName := "Mathematics";
     topicTitle := "Algebra"; mastery := 1 # 10; attempts := 5; corrects := 0;
     lastReview := Some (t0 - 2 * msPerDay); emaAlpha := 3 # 10 |}.

Definition db1 : DB :=
  {| db_attempts := []; db_progress := [prog_geometry; prog_algebra; prog_weak];
     db_users := [ {| u_id := 1; stats := stats0 |}; {| u_id := 2; stats := stats0 |} ] |}.

Definition req_geo : Request := request "math_geometry" "math_geometry_Q1" "c".
Definition req_alg2 : Request := request "math_algebra" "math_algebra_Q2" "b".


End Examples.
Import Examples.

(* ================================================================== *)
(** * Properties *)

(** ** Helpers on the submission handler *)
Module SubmitFacts.

Arguments castNumber : simpl never.
Arguments attempt_valid : simpl never.
Arguments progress_valid : simpl never.

Ltac step H :=
  match type of H with
  | context [castNumber ?v] => destruct (castNumber v) eqn:?
  | context [attempt_valid ?a] => destruct (attempt_valid a) eqn:?
  | context [progress_valid ?p] => destruct (progress_valid p) eqn:?
  | context [fails ?e ?f] => destruct (fails e f) eqn:?
  | context [find_progress ?d ?u ?t] => destruct (find_progress d u t) eqn:?
  | context [find_user ?d ?u] => destruct (find_user d u) eqn:?
  | context [Qle_bool ?x ?y] => destruct (Qle_bool x y) eqn:?
  end; simpl in H; try discriminate H.

(** Unfold the handler and split on every branch it can take. *)
Ltac run_handler H :=
  unfold submit_answer, submit_body in H;
  destruct (resolve _ _ _) as [? ? ? ? ?| |] eqn:?; simpl in H; try discriminate H;
  [destruct (userAnswer _) as [?|] eqn:?; simpl in H; try discriminate H|..];
  cbv [bind ret throw attempt_create progress_findOne progress_create
       progress_save user_findById user_save] in H; simpl in H;
  repeat step H.

Lemma same_key_refl (p : Progress) : same_key (p_userId p) (p_topicId p) p = true.
Proof. unfold same_key. now rewrite Nat.eqb_refl, String.eqb_refl. Qed.

Lemma same_key_true (uid : nat) (tid : string) (p : Progress) :
  same_key uid tid p = true -> p_userId p = uid /\ p_topicId p = tid.
Proof.
  unfold same_key. intros H. apply andb_prop in H as [H1 H2].
  split; [now apply Nat.eqb_eq | now apply String.eqb_eq].
Qed.

Lemma find_save_progress (p : Progress) (l : list Progress) :
  find (same_key (p_userId p) (p_topicId p)) (save_progress p l) = Some p.
Proof.
  induction l as [|q qs IH]; simpl.
  - now rewrite same_key_refl.
  - destruct (same_key (p_userId p) (p_topicId p) q) eqn:E; simpl.
    + now rewrite same_key_refl.
    + now rewrite E.
Qed.

Lemma find_save_user (u : User) (l : list User) :
  find (fun v => Nat.eqb (u_id v) (u_id u)) (save_user u l) = Some u.
Proof.
  induction l as [|v vs IH]; simpl.
  - now rewrite Nat.eqb_refl.
  - destruct (Nat.eqb (u_id v) (u_id u)) eqn:E; simpl.
    + now rewrite Nat.eqb_refl.
    + now rewrite E.
Qed.

Lemma find_save_progress_key (uid : nat) (tid : string) (p : Progress) (l : list Progress) :
  p_userId p = uid -> p_topicId p = tid ->
  find (same_key uid tid) (save_progress p l) = Some p.
Proof. intros <- <-. apply find_save_progress. Qed.

Lemma find_save_user_key (uid : nat) (u : User) (l : list User) :
  u_id u = uid -> find (fun v => Nat.eqb (u_id v) uid) (save_user u l) = Some u.
Proof. intros <-. apply find_save_user. Qed.

Lemma prior_progress_key (db : DB) (uid : nat) (tid sname ttitle : string) :
  p_userId (prior_progress db uid tid sname ttitle) = uid /\
  p_topicId (prior_progress db uid tid sname ttitle) = tid.
Proof.
  unfold prior_progress. destruct (find_progress db uid tid) eqn:E.
  - apply find_some in E as [_ E]. now apply same_key_true.
  - now split.
Qed.

(** Everything a successful submission did. *)
Lemma submit_ok_cast (env : Env) (req : Request) (db db' : DB)
    (isC : bool) (ca : string) (m : Q) (a c : Z) (st : Stats) :
  submit_answer env req db = (Ok isC ca m a c st, db') ->
  exists tm, castNumber (timeTaken req) = Some tm.
Proof. intros H. run_handler H. all: eexists; first [eassumption | reflexivity]. Qed.

Lemma submit_ok_inv (env : Env) (req : Request) (db db' : DB)
    (isC : bool) (ca : string) (m : Q) (a c : Z) (st : Stats) :
  submit_answer env req db = (Ok isC ca m a c st, db') ->
  exists sname ttitle tid qid ua u,
    resolve (subjects env) (topicId req) (questionId req) = Found ca sname ttitle tid qid /\
    userAnswer req = JStr ua /\
    isC = String.eqb (toUpperCase ua) (toUpperCase ca) /\
    find_user db (req_userId req) = Some u /\
    let prog' := update_progress (now env) isC
                   (prior_progress db (req_userId req) tid sname ttitle) in
    m = mastery prog' /\ a = attempts prog' /\ c = corrects prog' /\
    st = updateStreak (tz env) (now env) (count_answer isC (stats u)) /\
    find_progress db' (req_userId req) tid = Some prog' /\
    find_user db' (req_userId req) = Some {| u_id := u_id u; stats := st |}.
Proof.
  intros H. run_handler H.
  all: injection H as Hi Hca Hm Ha Hc Hst Hdb; subst.
  all: do 6 eexists; split; [reflexivity|]; split; [reflexivity|];
       split; [reflexivity|]; split; [eassumption|].
  all: cbv zeta; unfold prior_progress, find_progress, find_user in *;
       cbn [db_progress db_users db_attempts] in *.
  all: match goal with
       | Hp : find (same_key _ _) (db_progress _) = _ |- _ => rewrite Hp
       end.
  all: repeat split; simpl.
  all: first
    [ apply find_save_progress_key; simpl;
      first [ reflexivity
            | match goal with
              | Hp : find (same_key _ _) _ = Some _ |- _ =>
                  apply find_some in Hp as [_ Hp]; apply same_key_true in Hp; tauto
              end ]
    | apply find_save_user_key; simpl;
      match goal with
      | Hu : find _ (db_users _) = Some _ |- _ =>
          apply find_some in Hu as [_ Hu]; now apply Nat.eqb_eq in Hu
      end ].
Qed.

End SubmitFacts.
Import SubmitFacts.

(** ** The mastery update *)
Module MasteryProps.

Lemma newMastery_bounds (alpha prior : Q) (isCorrect : bool) :
  (0 <= prior <= 1)%Q -> (0 <= alpha <= 1)%Q ->
  (0 <= newMastery alpha isCorrect prior <= 1)%Q.
Proof.
  intros [Hp0 Hp1] [Ha0 Ha1]. unfold newMastery.
  destruct isCorrect; split; nra.
Qed.

(** C1: a successful submission stores
    [alpha * (isCorrect ? 1 : 0) + (1 - alpha) * priorMastery] for the
    topic, with [alpha] and [priorMastery] taken from the stored record,
    or from the fresh record (mastery 0.2, emaAlpha 0.3) on a first
    attempt, the EMA step being applied to it as well; and for a prior and
    an alpha in [0,1] that value lies in [0,1]. *)
Theorem submit_answer_ema_update (env : Env) (req : Request) (db db' : DB)
    (isCorrect : bool) (ca : string) (m : Q) (a c : Z) (st : Stats) :
  submit_answer env req db = (Ok isCorrect ca m a c st, db') ->
  (exists sname ttitle tid qid p',
     resolve (subjects env) (topicId req) (questionId req) = Found ca sname ttitle tid qid /\
     find_progress db' (req_userId req) tid = Some p' /\ mastery p' = m /\
     match find_progress db (req_userId req) tid with
     | Some p =>
         m = (emaAlpha p * (if isCorrect then 1 else 0) + (1 - emaAlpha p) * mastery p)%Q
     | None =>
         m = ((3 # 10) * (if isCorrect then 1 else 0) + (1 - (3 # 10)) * (2 # 10))%Q
     end) /\
  (forall (b : bool) (priorMastery alpha : Q),
     (0 <= priorMastery <= 1)%Q -> (0 <= alpha <= 1)%Q ->
     (0 <= newMastery alpha b priorMastery <= 1)%Q).
Proof.
  intros H. split; [|intros b pm al; apply newMastery_bounds].
  apply submit_ok_inv in H
    as (sname & ttitle & tid & qid & ua & u & Hr & Hu & Hc & Hfu & Hm & Ha & Hcs & Hst & Hp & Hu').
  exists sname, ttitle, tid, qid.
  eexists; split; [exact Hr|]; split; [exact Hp|]; split; [symmetry; exact Hm|].
  rewrite Hm. unfold prior_progress.
  destruct (find_progress db (req_userId req) tid); reflexivity.
Qed.

Lemma submit_answer_ema_update_witness :
  submit_answer env0 req_ok db0
    = (Ok true "a " (newMastery (3 # 10) true (2 # 10)) 1 1 stats_ok, db_ok) /\
  (exists sname ttitle tid qid p',
     resolve (subjects env0) (topicId req_ok) (questionId req_ok)
       = Found "a " sname ttitle tid qid /\
     find_progress db_ok (req_userId req_ok) tid = Some p' /\
     mastery p' = newMastery (3 # 10) true (2 # 10) /\
     match find_progress db0 (req_userId req_ok) tid with
     | Some p => newMastery (3 # 10) true (2 # 10)
                 = (emaAlpha p * 1 + (1 - emaAlpha p) * mastery p)%Q
     | None => newMastery (3 # 10) true (2 # 10)
               = ((3 # 10) * 1 + (1 - (3 # 10)) * (2 # 10))%Q
     end).
Proof.
  assert (H : submit_answer env0 req_ok db0
              = (Ok true "a " (newMastery (3 # 10) true (2 # 10)) 1 1 stats_ok, db_ok))
    by (vm_compute; reflexivity).
  split; [exact H|].
  exact (proj1 (submit_answer_ema_update _ _ _ _ _ _ _ _ _ _ H)).
Defined.

(** C7 (amended): computed exactly (over the rationals), for [mastery0]
    in [0,1] and [alpha] in (0,1], a correct answer does not lower the
    mastery and an incorrect one does not raise it.  The engine computes
    line 90 in doubles, where this fails: see [newMastery_double_decreases]. *)
Theorem newMastery_monotone (mastery0 alpha : Q) :
  (0 <= mastery0 <= 1)%Q -> (0 < alpha <= 1)%Q ->
  (mastery0 <= newMastery alpha true mastery0)%Q /\
  (newMastery alpha false mastery0 <= mastery0)%Q.
Proof.
  intros [H0 H1] [Ha0 Ha1]. unfold newMastery. split; nra.
Qed.

Lemma newMastery_monotone_witness :
  ((0 <= 2 # 10 <= 1)%Q /\ (0 < 3 # 10 <= 1)%Q) /\
  ((2 # 10) <= newMastery (3 # 10) true (2 # 10))%Q /\
  (newMastery (3 # 10) false (2 # 10) <= 2 # 10)%Q.
Proof.
  assert (Hm : (0 <= 2 # 10 <= 1)%Q) by (split; vm_compute; discriminate).
  assert (Ha : (0 < 3 # 10 <= 1)%Q) by (split; [reflexivity | vm_compute; discriminate]).
  split; [split; assumption|].
  exact (newMastery_monotone (2 # 10) (3 # 10) Hm Ha).
Defined.

End MasteryProps.

(** ** The EMA step in doubles *)
Module DoubleProps.
Import Floats.
Local Set Warnings "-inexact-float".
Local Open Scope float_scope.

(** C7 (counterexample): in doubles, with [alpha = 0.3] and a mastery of
    0.9999999999999999 (the largest double below 1), a correct answer
    stores 0.9999999999999998: the mastery goes down. *)
Example newMastery_double_decreases :
  newMastery_double 0.3 true 0.9999999999999999 = 0.9999999999999998 /\
  PrimFloat.ltb (newMastery_double 0.3 true 0.9999999999999999) 0.9999999999999999 = true.
Proof. split; vm_compute; reflexivity. Qed.

End DoubleProps.

(** ** Answer checking and counters *)
Module SubmitProps.

(** C4 (counterexample): the stored answer ["a "] and the submitted
    answer ["A"] differ after upper-casing (["A "] against ["A"]): the
    submission succeeds with [isCorrect = false]. *)
Example isCorrect_not_trimmed :
  match fst (submit_answer env0 (request "math_algebra" "math_algebra_Q1" "A") db0) with
  | Ok isCorrect ca _ _ _ _ => ca = "a "%string /\ isCorrect = false
  | _ => False
  end.
Proof. vm_compute. split; reflexivity. Qed.

(** C4 (amended): correctness is the comparison of the upper-cased,
    untrimmed submitted and stored answers. *)
Theorem submit_answer_isCorrect (env : Env) (req : Request) (db db' : DB)
    (isCorrect : bool) (ca : string) (m : Q) (a c : Z) (st : Stats) :
  submit_answer env req db = (Ok isCorrect ca m a c st, db') ->
  exists ua, userAnswer req = JStr ua /\
             isCorrect = String.eqb (toUpperCase ua) (toUpperCase ca).
Proof.
  intros H.
  apply submit_ok_inv in H as (sname & ttitle & tid & qid & ua & u & Hr & Hu & Hc & _).
  exists ua. now split.
Qed.

Lemma submit_answer_isCorrect_witness :
  submit_answer env0 req_ok db0
    = (Ok true "a " (newMastery (3 # 10) true (2 # 10)) 1 1 stats_ok, db_ok) /\
  exists ua, userAnswer req_ok = JStr ua /\
             true = String.eqb (toUpperCase ua) (toUpperCase "a ").
Proof.
  assert (H : submit_answer env0 req_ok db0
              = (Ok true "a " (newMastery (3 # 10) true (2 # 10)) 1 1 stats_ok, db_ok))
    by (vm_compute; reflexivity).
  split; [exact H|].
  exact (submit_answer_isCorrect _ _ _ _ _ _ _ _ _ _ H).
Defined.

(** C6: a successful submission adds 1 to [attempts], adds 1 to
    [corrects] exactly when the answer is correct, and sets [lastReview];
    from [0 <= corrects <= attempts] the update keeps it, neither counter
    decreases, and the stored user stats satisfy
    [currentStreak <= longestStreak]. *)
Theorem submit_answer_counters (env : Env) (req : Request) (db db' : DB)
    (isCorrect : bool) (ca : string) (m : Q) (a c : Z) (st : Stats) :
  submit_answer env req db = (Ok isCorrect ca m a c st, db') ->
  exists sname ttitle tid qid p' u',
    resolve (subjects env) (topicId req) (questionId req) = Found ca sname ttitle tid qid /\
    let prog := prior_progress db (req_userId req) tid sname ttitle in
    find_progress db' (req_userId req) tid = Some p' /\
    attempts p' = attempts prog + 1 /\
    corrects p' = corrects prog + (if isCorrect then 1 else 0) /\
    lastReview p' = Some (now env) /\
    attempts prog <= attempts p' /\ corrects prog <= corrects p' /\
    (0 <= corrects prog <= attempts prog -> 0 <= corrects p' <= attempts p') /\
    find_user db' (req_userId req) = Some u' /\ stats u' = st /\
    currentStreak st <= longestStreak st.
Proof.
  intros H.
  apply submit_ok_inv in H
    as (sname & ttitle & tid & qid & ua & u & Hr & Hu & Hc & Hfu & Hm & Ha & Hcs & Hst & Hp & Hu').
  exists sname, ttitle, tid, qid.
  do 2 eexists. split; [exact Hr|]. cbv zeta.
  split; [exact Hp|]. simpl.
  split; [reflexivity|]. split; [reflexivity|]. split; [reflexivity|].
  split; [lia|]. split; [destruct isCorrect; lia|].
  split; [destruct isCorrect; lia|].
  split; [exact Hu'|]. split; [reflexivity|].
  rewrite Hst. unfold updateStreak. simpl. lia.
Qed.

Lemma submit_answer_counters_witness :
  submit_answer env0 req_ok db0
    = (Ok true "a " (newMastery (3 # 10) true (2 # 10)) 1 1 stats_ok, db_ok) /\
  exists sname ttitle tid qid p' u',
    resolve (subjects env0) (topicId req_ok) (questionId req_ok)
      = Found "a " sname ttitle tid qid /\
    let prog := prior_progress db0 (req_userId req_ok) tid sname ttitle in
    find_progress db_ok (req_userId req_ok) tid = Some p' /\
    attempts p' = attempts prog + 1 /\
    corrects p' = corrects prog + 1 /\
    lastReview p' = Some (now env0) /\
    attempts prog <= attempts p' /\ corrects prog <= corrects p' /\
    (0 <= corrects prog <= attempts prog -> 0 <= corrects p' <= attempts p') /\
    find_user db_ok (req_userId req_ok) = Some u' /\ stats u' = stats_ok /\
    currentStreak stats_ok <= longestStreak stats_ok.
Proof.
  assert (H : submit_answer env0 req_ok db0
              = (Ok true "a " (newMastery (3 # 10) true (2 # 10)) 1 1 stats_ok, db_ok))
    by (vm_compute; reflexivity).
  split; [exact H|].
  exact (submit_answer_counters _ _ _ _ _ _ _ _ _ _ H).
Defined.

End SubmitProps.

(** ** Failed and rejected submissions *)
Module FailureProps.

(** C5 (counterexample): when the final [user.save()] fails, the
    submission answers 500 but the Attempt document and the updated
    Progress document stay stored; only the user stats are unchanged. *)
Example failed_submission_keeps_attempt :
  let '(r, db') := submit_answer env_user_save_fails req_ok db0 in
  r = ServerError /\ List.length (db_attempts db') = 1%nat /\
  List.length (db_progress db') = 1%nat /\ db_users db' = db_users db0.
Proof. vm_compute. repeat split. Qed.

(** C5 (amended): a submission is not atomic. It either answers 404 and
    writes nothing, or answers 200 after issuing all of its planned writes
    (Attempt, Progress create on a first attempt, Progress save, User
    save), or answers 500 after issuing some prefix of them, possibly a
    non-empty one that leaves the Attempt stored without the Progress or
    stats update. *)
Theorem submit_answer_partial_writes (env : Env) (req : Request) (db db' : DB) (r : Response) :
  submit_answer env req db = (r, db') ->
  (r = NotFound /\ db' = db) \/
  (r = ServerError /\ exists k, db' = apply_writes (firstn k (planned_writes env req db)) db) \/
  ((exists isC ca m a c st, r = Ok isC ca m a c st) /\
   db' = apply_writes (planned_writes env req db) db).
Proof.
  intros H.
  unfold submit_answer, submit_body, planned_writes, prior_progress in *.
  destruct (resolve _ _ _) as [ca sname ttitle tid qid| |] eqn:Hres; simpl in H.
  - destruct (userAnswer req) as [ua|] eqn:Hua; simpl in H.
    + cbv [bind ret throw attempt_create progress_findOne progress_create
           progress_save user_findById user_save find_progress find_user] in *.
      simpl in H.
      repeat match type of H with
      | context [castNumber ?v] => destruct (castNumber v) eqn:?; simpl in H
      | context [attempt_valid ?a] => destruct (attempt_valid a) eqn:?; simpl in H
      | context [progress_valid ?p] => destruct (progress_valid p) eqn:?; simpl in H
      | context [fails ?e ?f] => destruct (fails e f) eqn:?; simpl in H
      | context [find ?p (db_progress db)] => destruct (find p (db_progress db)) eqn:?; simpl in H
      | context [find ?p (db_users db)] => destruct (find p (db_users db)) eqn:?; simpl in H
      | context [Qle_bool ?x ?y] => destruct (Qle_bool x y) eqn:?; simpl in H
      end;
      injection H as <- <-;
      first
        [ right; right; split; [do 6 eexists; reflexivity | reflexivity]
        | right; left; split; [reflexivity|];
          first [ exists 0%nat; reflexivity | exists 1%nat; reflexivity
                | exists 2%nat; reflexivity | exists 3%nat; reflexivity ] ].
    + injection H as <- <-. right; left. split; [reflexivity|]. now exists 0%nat.
  - injection H as <- <-. now left.
  - injection H as <- <-. right; left. split; [reflexivity|]. now exists 0%nat.
Qed.

Lemma submit_answer_partial_writes_witness :
  let res := submit_answer env_user_save_fails req_ok db0 in
  res = (fst res, snd res) /\
  ((fst res = NotFound /\ snd res = db0) \/
   (fst res = ServerError /\ exists k,
      snd res = apply_writes (firstn k (planned_writes env_user_save_fails req_ok db0)) db0) \/
   ((exists isC ca m a c st, fst res = Ok isC ca m a c st) /\
    snd res = apply_writes (planned_writes env_user_save_fails req_ok db0) db0)).
Proof.
  intros res. split; [vm_compute; reflexivity|].
  apply (submit_answer_partial_writes env_user_save_fails req_ok db0 (snd res) (fst res)).
  vm_compute. reflexivity.
Defined.

(** C10 (counterexample): a [questionId] that is not a string (a JSON
    number, say) on a known topic makes [questionId.split] throw; the
    handler answers 500, not 404 (still with no write). *)
Example non_string_questionId_is_500 :
  submit_answer env0 {| req_userId := 1; topicId := JStr "math_algebra"; questionId := JOther;
                        userAnswer := JStr "B"; timeTaken := JNull |} db0
  = (ServerError, db0).
Proof. vm_compute. reflexivity. Qed.

(** C10 (amended): with an unknown topic, or a string [questionId] whose
    parsed index (NaN included) is out of range for the matched topic, or
    whose question has the empty stored answer, the handler answers 404
    and writes nothing; a non-string [questionId] on a matched topic
    answers 500, also writing nothing. *)
Theorem submit_answer_not_found (env : Env) (req : Request) (db : DB) :
  ((forall tid, topicId req = JStr tid -> find_topic (subjects env) tid = None) ->
   submit_answer env req db = (NotFound, db)) /\
  (forall tid s t qid,
     topicId req = JStr tid -> find_topic (subjects env) tid = Some (s, t) ->
     questionId req = JStr qid ->
     (index (questions t) (qIndex qid) = None \/
      exists q, index (questions t) (qIndex qid) = Some q /\ answer q = EmptyString) ->
     submit_answer env req db = (NotFound, db)) /\
  (forall tid s t,
     topicId req = JStr tid -> find_topic (subjects env) tid = Some (s, t) ->
     questionId req = JOther ->
     submit_answer env req db = (ServerError, db)).
Proof.
  unfold submit_answer, submit_body, resolve. split; [|split].
  - intros Hnone. destruct (topicId req) as [tid|]; [|reflexivity].
    now rewrite (Hnone tid eq_refl).
  - intros tid s t qid -> Ht -> Hq. rewrite Ht.
    destruct Hq as [-> | [q [-> Hq]]]; [reflexivity|]. now rewrite Hq.
  - intros tid s t -> Ht ->. now rewrite Ht.
Qed.

Lemma submit_answer_not_found_witness :
  submit_answer env0 (request "math_algebra" "math_algebra_Q9" "B") db0 = (NotFound, db0) /\
  submit_answer env0 (request "math_algebra" "math_algebra_Q3" "B") db0 = (NotFound, db0) /\
  submit_answer env0 (request "physics" "physics_Q1" "B") db0 = (NotFound, db0).
Proof.
  split; [|split].
  - eapply (proj1 (proj2 (submit_answer_not_found env0 (request "math_algebra" "math_algebra_Q9" "B") db0)));
      [reflexivity | vm_compute; reflexivity | reflexivity | left; vm_compute; reflexivity].
  - eapply (proj1 (proj2 (submit_answer_not_found env0 (request "math_algebra" "math_algebra_Q3" "B") db0)));
      [reflexivity | vm_compute; reflexivity | reflexivity |].
    right. eexists. split; [vm_compute; reflexivity | reflexivity].
  - apply (proj1 (submit_answer_not_found env0 (request "physics" "physics_Q1" "B") db0)).
    intros tid Htid. injection Htid as <-. vm_compute. reflexivity.
Defined.

End FailureProps.

(** ** The streak *)
Module StreakProps.












End StreakProps.

(** ** The comparator sort *)
Module SortFacts.

Lemma Qlt_bool_iff (a b : Q) : Qlt_bool a b = true <-> (a < b)%Q.
Proof.
  unfold Qlt_bool. rewrite Bool.negb_true_iff. split.
  - intros H. apply Qnot_le_lt. intros Hle. apply Qle_bool_iff in Hle. congruence.
  - intros H. destruct (Qle_bool b a) eqn:E; [|reflexivity].
    apply Qle_bool_iff in E. exfalso. apply (Qlt_not_le a b H E).
Qed.

Section WithKey.
Context {A : Type} (key : A -> Q).

(** Non-increasing order of the key. *)
Definition desc (a b : A) : Prop := (key b <= key a)%Q.

(** The comparator [(a, b) => key(b) - key(a)]. *)
Definition key_cmp (a b : A) : Q := (key b - key a)%Q.

Lemma ins_first (x y : A) :
  Qlt_bool (key_cmp x y) 0 = true <-> (key y < key x)%Q.
Proof. unfold key_cmp. rewrite Qlt_bool_iff. split; intros; lra. Qed.

Lemma desc_trans : Transitive desc.
Proof. intros a b c Hab Hbc. unfold desc in *. lra. Qed.

Lemma HdRel_insert (y x : A) (l : list A) :
  HdRel desc y l -> desc y x -> HdRel desc y (insert key_cmp x l).
Proof.
  intros Hh Hyx. destruct l as [|z zs]; simpl.
  - now constructor.
  - destruct (Qlt_bool (key_cmp x z) 0); constructor; [exact Hyx|].
    now inversion Hh.
Qed.

Lemma insert_sorted (x : A) (l : list A) : Sorted desc l -> Sorted desc (insert key_cmp x l).
Proof.
  induction l as [|y ys IH]; intros Hs; simpl.
  - now repeat constructor.
  - destruct (Qlt_bool (key_cmp x y) 0) eqn:E.
    + apply ins_first in E. constructor; [exact Hs|]. constructor. unfold desc. lra.
    + apply Sorted_inv in Hs as [Hs Hh]. constructor; [now apply IH|].
      apply HdRel_insert; [exact Hh|]. unfold desc.
      apply Qnot_lt_le. intros Hlt. apply ins_first in Hlt. congruence.
Qed.

Lemma fold_insert_sorted (l acc : list A) :
  Sorted desc acc -> Sorted desc (fold_left (fun acc x => insert key_cmp x acc) l acc).
Proof.
  revert acc. induction l as [|x xs IH]; intros acc Hs; simpl; [exact Hs|].
  apply IH. now apply insert_sorted.
Qed.

Lemma sort_sorted (l : list A) : Sorted desc (sort key_cmp l).
Proof. apply fold_insert_sorted. constructor. Qed.

Lemma insert_length (x : A) (l : list A) : List.length (insert key_cmp x l) = S (List.length l).
Proof.
  induction l as [|y ys IH]; simpl; [reflexivity|].
  destruct (Qlt_bool (key_cmp x y) 0); simpl; [reflexivity|]. now rewrite IH.
Qed.

Lemma fold_insert_length (l acc : list A) :
  List.length (fold_left (fun acc x => insert key_cmp x acc) l acc)
  = (List.length l + List.length acc)%nat.
Proof.
  revert acc. induction l as [|x xs IH]; intros acc; simpl; [reflexivity|].
  rewrite IH, insert_length. lia.
Qed.

Lemma sort_length (l : list A) : List.length (sort key_cmp l) = List.length l.
Proof. unfold sort. rewrite fold_insert_length. simpl. lia. Qed.

Lemma sorted_head_max (y z : A) (ys : list A) :
  Sorted desc (y :: ys) -> In z ys -> (key z <= key y)%Q.
Proof.
  intros Hs Hin. apply Sorted_StronglySorted in Hs; [|exact desc_trans].
  apply StronglySorted_inv in Hs as [_ Hf].
  rewrite Forall_forall in Hf. exact (Hf z Hin).
Qed.

(** Stability: among the elements of one key, the sort keeps the input
    order. *)
Section Stable.
Variable s : Q.
Let P (e : A) : bool := Qeq_bool (key e) s.

Lemma filter_none (l : list A) : (forall z, In z l -> P z = false) -> filter P l = [].
Proof.
  induction l as [|z zs IH]; intros H; simpl; [reflexivity|].
  rewrite (H z (or_introl eq_refl)). apply IH. intros w Hw. apply H. now right.
Qed.

Lemma insert_filter (x : A) (acc : list A) :
  Sorted desc acc -> filter P (insert key_cmp x acc) = filter P acc ++ (if P x then [x] else []).
Proof.
  induction acc as [|y ys IH]; intros Hs; cbn [insert].
  - simpl. destruct (P x); reflexivity.
  - destruct (Qlt_bool (key_cmp x y) 0) eqn:E.
    + apply ins_first in E.
      change (filter P (x :: y :: ys))
        with (if P x then x :: filter P (y :: ys) else filter P (y :: ys)).
      destruct (P x) eqn:Px.
      * rewrite (filter_none (y :: ys)); [reflexivity|].
        intros z Hz. unfold P in *. apply Qeq_bool_iff in Px.
        destruct (Qeq_bool (key z) s) eqn:Pz; [|reflexivity].
        apply Qeq_bool_iff in Pz. exfalso.
        assert (Hzy : (key z <= key y)%Q)
          by (destruct Hz as [<-|Hz]; [apply Qle_refl | exact (sorted_head_max y z ys Hs Hz)]).
        lra.
      * now rewrite app_nil_r.
    + apply Sorted_inv in Hs as [Hs _].
      change (filter P (y :: insert key_cmp x ys))
        with (if P y then y :: filter P (insert key_cmp x ys) else filter P (insert key_cmp x ys)).
      change (filter P (y :: ys)) with (if P y then y :: filter P ys else filter P ys).
      rewrite (IH Hs). destruct (P y); reflexivity.
Qed.

Lemma fold_insert_filter (l acc : list A) :
  Sorted desc acc ->
  filter P (fold_left (fun acc x => insert key_cmp x acc) l acc) = filter P acc ++ filter P l.
Proof.
  revert acc. induction l as [|x xs IH]; intros acc Hs; simpl.
  - now rewrite app_nil_r.
  - rewrite IH by (now apply insert_sorted).
    rewrite insert_filter by exact Hs. rewrite <- app_assoc.
    destruct (P x); reflexivity.
Qed.

Lemma sort_stable (l : list A) : filter P (sort key_cmp l) = filter P l.
Proof. unfold sort. rewrite fold_insert_filter by constructor. reflexivity. Qed.
End Stable.

(** In a non-increasing list an element of strictly larger key comes
    first. *)
Lemma strongly_sorted_nth (l : list A) (i j : nat) (x y : A) :
  StronglySorted desc l -> (j <= i)%nat ->
  nth_error l j = Some y -> nth_error l i = Some x -> (key x <= key y)%Q.
Proof.
  revert i j. induction l as [|a l IH]; intros i j Hs Hji Hj Hi.
  - destruct j; discriminate.
  - apply StronglySorted_inv in Hs as [Hs Hf]. destruct j as [|j'], i as [|i'].
    + simpl in *. injection Hj as <-. injection Hi as <-. apply Qle_refl.
    + simpl in *. injection Hj as <-. rewrite Forall_forall in Hf.
      apply Hf. eapply nth_error_In. exact Hi.
    + lia.
    + simpl in *. apply (IH i' j'); [exact Hs | lia | exact Hj | exact Hi].
Qed.

Lemma sorted_rank (l : list A) (i j : nat) (x y : A) :
  Sorted desc l -> nth_error l i = Some x -> nth_error l j = Some y ->
  (key y < key x)%Q -> (i < j)%nat.
Proof.
  intros Hs Hi Hj Hlt. apply Sorted_StronglySorted in Hs; [|exact desc_trans].
  destruct (Nat.lt_ge_cases i j) as [H|H]; [exact H|].
  pose proof (strongly_sorted_nth l i j x y Hs H Hj Hi). lra.
Qed.

Lemma sorted_firstn (k : nat) (l : list A) : Sorted desc l -> Sorted desc (firstn k l).
Proof.
  revert k. induction l as [|a l IH]; intros k Hs.
  - destruct k; constructor.
  - destruct k as [|k]; [constructor|]. simpl.
    apply Sorted_inv in Hs as [Hs Hh]. constructor; [now apply IH|].
    destruct l as [|b l], k as [|k]; simpl; try constructor. now inversion Hh.
Qed.

End WithKey.
End SortFacts.

(** ** Recommendation scores and ranking *)
Module RecommendProps.
Import SortFacts.

Lemma filter_length_map {A} (f : A -> bool) (l : list A) :
  List.length (filter f l) = List.length (filter (fun b => b) (map f l)).
Proof.
  induction l as [|x xs IH]; simpl; [reflexivity|]. destruct (f x); simpl; now rewrite IH.
Qed.

(** The two counts of the struggling rule depend only on the outcomes. *)
Lemma recent_counts (l : list Attempt) :
  List.length (filter att_isCorrect (firstn 5 l))
  = List.length (filter (fun b => b) (firstn 5 (map att_isCorrect l))) /\
  List.length l = List.length (map att_isCorrect l).
Proof.
  rewrite filter_length_map, firstn_map, length_map. split; reflexivity.
Qed.

Lemma daysSince_nonneg (now : Z) (lr : option Z) :
  (forall t, lr = Some t -> t <= now) -> (0 <= daysSince now lr)%Q.
Proof.
  intros H. destruct lr as [t|]; unfold daysSince.
  - apply Qle_shift_div_l; [vm_compute; reflexivity|].
    rewrite Qmult_0_l. change 0%Q with (inject_Z 0). rewrite <- Zle_Qle.
    specialize (H t eq_refl). lia.
  - vm_compute. discriminate.
Qed.

Lemma recencyFactor_range (ds : Q) : (0 <= ds)%Q -> (1 <= recencyFactor ds <= 2)%Q.
Proof.
  intros H. unfold recencyFactor.
  destruct (Q.min_spec (ds / 30) 2) as [[Hlt E]|[Hle E]]; rewrite E.
  - assert (0 <= ds / 30)%Q by (apply Qle_shift_div_l; [reflexivity|]; lra).
    split; lra.
  - split; lra.
Qed.

Lemma strugglingBonus_spec (rc rt : Z) :
  (strugglingBonus rc rt = 3 # 10 /\ 0 < rt /\ (inject_Z rc / inject_Z rt < 4 # 10)%Q) \/
  (strugglingBonus rc rt = 0%Q /\ ~ (0 < rt /\ (inject_Z rc / inject_Z rt < 4 # 10)%Q)).
Proof.
  unfold strugglingBonus.
  destruct (0 <? rt) eqn:E1; destruct (Qlt_bool (inject_Z rc / inject_Z rt) (4 # 10)) eqn:E2;
    simpl.
  - left. apply Z.ltb_lt in E1. apply Qlt_bool_iff in E2. now repeat split.
  - right. split; [reflexivity|]. intros [_ H]. apply Qlt_bool_iff in H. congruence.
  - right. split; [reflexivity|]. intros [H _]. apply Z.ltb_lt in H. congruence.
  - right. split; [reflexivity|]. intros [H _]. apply Z.ltb_lt in H. congruence.
Qed.


Lemma total_pos {A} (l : list A) : 0 < Z.min (Z.of_nat (List.length l)) 5 <-> l <> [].
Proof.
  destruct l as [|x xs]; simpl.
  - split; [lia | intros H; now contradiction H].
  - split; [intros _; discriminate | intros _; lia].
Qed.




Lemma score_topic_eq (now : Z) (userProgress : list Progress) (recent : list Attempt)
    (topic : TopicInfo) :
  let progress := progressMap_get userProgress (ti_topicId topic) in
  let topicAttempts :=
    filter (fun a => String.eqb (att_topicId a) (ti_topicId topic)) recent in
  score (score_topic now userProgress recent topic)
  = ((1 - match progress with Some p => mastery p | None => 2 # 10 end)
     * recencyFactor (daysSince now (match progress with
                                     | Some p => lastReview p
                                     | None => None
                                     end))
     + strugglingBonus
         (Z.of_nat (List.length (filter att_isCorrect (firstn 5 topicAttempts))))
         (Z.min (Z.of_nat (List.length topicAttempts)) 5))%Q.
Proof. reflexivity. Qed.

(** C8: with mastery 0.2 for both and the same recent outcomes, a topic
    never reviewed scores strictly higher than one reviewed a day ago,
    and comes first in the sorted list of all topics. *)
Theorem never_reviewed_outranks (subjects : list Subject) (now : Z)
    (userProgress : list Progress) (userAttempts : list Attempt)
    (t1 t2 : TopicInfo) (p2 : Progress) :
  (progressMap_get userProgress (ti_topicId t1) = None \/
   exists p1, progressMap_get userProgress (ti_topicId t1) = Some p1 /\
              (mastery p1 == 2 # 10)%Q /\ lastReview p1 = None) ->
  progressMap_get userProgress (ti_topicId t2) = Some p2 ->
  (mastery p2 == 2 # 10)%Q -> lastReview p2 = Some (now - msPerDay) ->
  map att_isCorrect (filter (fun a => String.eqb (att_topicId a) (ti_topicId t1))
                            (firstn 100 userAttempts))
  = map att_isCorrect (filter (fun a => String.eqb (att_topicId a) (ti_topicId t2))
                              (firstn 100 userAttempts)) ->
  let recent := firstn 100 userAttempts in
  let e1 := score_topic now userProgress recent t1 in
  let e2 := score_topic now userProgress recent t2 in
  (score e2 < score e1)%Q /\
  (forall i j,
     let ranked := sort by_score_desc
                     (map (score_topic now userProgress recent) (getAllTopicIds subjects)) in
     nth_error ranked i = Some e1 -> nth_error ranked j = Some e2 -> (i < j)%nat).
Proof.
  intros H1 Hp2 Hm2 Hl2 Hout recent e1 e2.
  change (firstn 100 userAttempts) with recent in Hout.
  set (l1 := filter (fun a => String.eqb (att_topicId a) (ti_topicId t1)) recent) in *.
  set (l2 := filter (fun a => String.eqb (att_topicId a) (ti_topicId t2)) recent) in *.
  set (B := strugglingBonus
              (Z.of_nat (List.length (filter att_isCorrect (firstn 5 l1))))
              (Z.min (Z.of_nat (List.length l1)) 5)).
  assert (HB : strugglingBonus
                 (Z.of_nat (List.length (filter att_isCorrect (firstn 5 l2))))
                 (Z.min (Z.of_nat (List.length l2)) 5) = B).
  { unfold B. destruct (recent_counts l1) as [C1 L1]. destruct (recent_counts l2) as [C2 L2].
    rewrite C1, C2, L1, L2, Hout. reflexivity. }
  assert (S1 : (score e1 == (1 - (2 # 10)) * recencyFactor 999 + B)%Q).
  { unfold e1. rewrite score_topic_eq. cbv zeta. fold l1. fold B.
    destruct H1 as [E|(p1 & E & Hm1 & Hl1)]; rewrite E.
    - reflexivity.
    - rewrite Hl1, Hm1. reflexivity. }
  assert (S2 : (score e2 == (1 - (2 # 10))
                 * recencyFactor (inject_Z msPerDay / inject_Z msPerDay) + B)%Q).
  { unfold e2. rewrite score_topic_eq. cbv zeta. fold l2. rewrite HB, Hp2, Hl2, Hm2.
    unfold daysSince. replace (now - (now - msPerDay)) with msPerDay by ring. reflexivity. }
  assert (R1 : (recencyFactor 999 == 2)%Q) by (vm_compute; reflexivity).
  assert (R2 : (recencyFactor (inject_Z msPerDay / inject_Z msPerDay) == 61 # 60)%Q)
    by (vm_compute; reflexivity).
  assert (Hlt : (score e2 < score e1)%Q) by (rewrite S1, S2, R1, R2; lra).
  split; [exact Hlt|].
  intros i j ranked Hi Hj.
  apply (sorted_rank score ranked i j e1 e2); [apply sort_sorted | exact Hi | exact Hj | exact Hlt].
Qed.

Lemma never_reviewed_outranks_witness :
  (score (score_topic t0 [prog_geometry] [] topic_geometry)
   < score (score_topic t0 [prog_geometry] [] topic_algebra))%Q /\
  (forall i j,
     let ranked := sort by_score_desc
                     (map (score_topic t0 [prog_geometry] []) (getAllTopicIds bank)) in
     nth_error ranked i = Some (score_topic t0 [prog_geometry] [] topic_algebra) ->
     nth_error ranked j = Some (score_topic t0 [prog_geometry] [] topic_geometry) ->
     (i < j)%nat).
Proof.
  apply (never_reviewed_outranks bank t0 [prog_geometry] [] topic_algebra topic_geometry
           prog_geometry).
  - left. reflexivity.
  - reflexivity.
  - reflexivity.
  - reflexivity.
  - reflexivity.
Defined.

(** C9 (counterexample): with [n = "-1"] and two topics, one
    recommendation comes back, not [min(-1, 2)]. *)
Example negative_n_slices_from_end :
  List.length (getAllTopicIds bank) = 2%nat /\
  Z.of_nat (List.length (recommendations bank [] [] t0 (Some "-1"%string))) = 1 /\
  1 <> Z.min (-1) 2.
Proof. vm_compute. split; [reflexivity|]. split; [reflexivity|]. discriminate. Qed.

(** C9 (amended): when [n] (default 3) parses to [k >= 0] the list has
    [min(k, topics)] entries, a negative [k] gives [max(topics + k, 0)]
    and an unparsable [n] none; the list is a prefix of all topics sorted
    by non-increasing score, equal scores kept in enumeration order. *)
Theorem recommendations_shape (subjects : list Subject) (userProgress : list Progress)
    (userAttempts : list Attempt) (now : Z) (n : option string) :
  let scores := map (score_topic now userProgress (firstn 100 userAttempts))
                    (getAllTopicIds subjects) in
  let ranked := sort by_score_desc scores in
  let out := recommendations subjects userProgress userAttempts now n in
  let total := Z.of_nat (List.length (getAllTopicIds subjects)) in
  Z.of_nat (List.length out)
    = match parseInt (match n with Some s => s | None => "3"%string end) with
      | Some k => if 0 <=? k then Z.min k total else Z.max (total + k) 0
      | None => 0
      end /\
  (n = None -> Z.of_nat (List.length out) = Z.min 3 total) /\
  out = firstn (List.length out) ranked /\
  Sorted (fun a b => (score b <= score a)%Q) out /\
  (forall s, filter (fun e => Qeq_bool (score e) s) ranked
             = filter (fun e => Qeq_bool (score e) s) scores).
Proof.
  intros scores ranked out total.
  assert (Hlen : List.length ranked = List.length (getAllTopicIds subjects)).
  { unfold ranked, scores. change by_score_desc with (key_cmp score).
    rewrite sort_length, length_map. reflexivity. }
  assert (Hout : out = slice0 ranked (parseInt (match n with Some s => s | None => "3"%string end)))
    by reflexivity.
  assert (Hl : Z.of_nat (List.length out)
               = match parseInt (match n with Some s => s | None => "3"%string end) with
                 | Some k => if 0 <=? k then Z.min k total else Z.max (total + k) 0
                 | None => 0
                 end).
  { rewrite Hout. unfold slice0. rewrite length_firstn, Hlen. fold total.
    destruct (parseInt _) as [k|]; [|reflexivity].
    destruct (k <? 0) eqn:E1; destruct (0 <=? k) eqn:E2;
      rewrite ?Z.ltb_lt, ?Z.ltb_ge, ?Z.leb_le, ?Z.leb_gt in *; try lia;
      unfold total in *; lia. }
  split; [exact Hl|].
  split; [intros ->; rewrite Hl; reflexivity|].
  assert (Hpre : out = firstn (List.length out) ranked).
  { rewrite Hout. unfold slice0. cbv zeta. rewrite length_firstn.
    destruct (parseInt _) as [e|]; [destruct (e <? 0) eqn:E; [apply Z.ltb_lt in E|]|];
      f_equal; lia. }
  split; [exact Hpre|].
  split.
  - rewrite Hpre. apply (sorted_firstn score). unfold ranked.
    change by_score_desc with (key_cmp score). apply sort_sorted.
  - intros s. unfold ranked. change by_score_desc with (key_cmp score).
    apply (sort_stable score s).
Qed.

Lemma recommendations_shape_witness :
  Z.of_nat (List.length (recommendations bank [] [] t0 None))
  = Z.min 3 (Z.of_nat (List.length (getAllTopicIds bank))).
Proof. exact (proj1 (proj2 (recommendations_shape bank [] [] t0 None)) eq_refl). Defined.

End RecommendProps.

(** ** Question ids: the quiz routes and the submission lookup *)
Module QuizProps.

Lemma digit_char_facts (d : nat) :
  (d < 10)%nat ->
  digit_val (digit_char d) = Some (Z.of_nat d) /\ is_ws (digit_char d) = false /\
  Ascii.eqb (digit_char d) "-" = false /\ Ascii.eqb (digit_char d) "+" = false /\
  Ascii.eqb (digit_char d) "x" = false /\ Ascii.eqb (digit_char d) "X" = false /\
  Ascii.eqb (digit_char d) "_" = false /\ Ascii.eqb (digit_char d) "0" = (d =? 0)%nat.
Proof.
  intros Hd.
  do 10 (destruct d as [|d]; [repeat split; reflexivity|]). lia.
Qed.

Fixpoint all_digits (s : string) : Prop :=
  match s with
  | EmptyString => True
  | String c r => (exists d, (d < 10)%nat /\ c = digit_char d) /\ all_digits r
  end.

Lemma string_of_nat_aux_digits (f n : nat) (acc : string) :
  all_digits acc -> all_digits (string_of_nat_aux f n acc).
Proof.
  revert n acc. induction f as [|f IH]; intros n acc Hacc; cbn [string_of_nat_aux]; [exact Hacc|].
  assert (Hc : all_digits (String (digit_char (n mod 10)) acc)).
  { split; [|exact Hacc]. exists (n mod 10)%nat. split; [apply Nat.mod_upper_bound; lia|reflexivity]. }
  destruct (n / 10 =? 0)%nat; [exact Hc|]. apply IH. exact Hc.
Qed.

Lemma string_of_nat_aux_nonempty (f n : nat) (acc : string) :
  (1 <= f)%nat -> string_of_nat_aux f n acc <> EmptyString.
Proof.
  revert n acc. induction f as [|f IH]; intros n acc Hf; [lia|]. cbn [string_of_nat_aux].
  destruct (n / 10 =? 0)%nat; [discriminate|].
  destruct f as [|f]; [cbn [string_of_nat_aux]; discriminate|]. apply IH. lia.
Qed.

Lemma digits_prefix_digit (d : nat) (r : string) (a : Z) (seen : bool) :
  (d < 10)%nat ->
  digits_prefix 10 (String (digit_char d) r) a seen = digits_prefix 10 r (a * 10 + Z.of_nat d) true.
Proof.
  intros Hd. cbn [digits_prefix]. destruct (digit_char_facts d Hd) as [-> _].
  replace (Z.of_nat d <? 10) with true by (symmetry; apply Z.ltb_lt; lia). reflexivity.
Qed.

Lemma string_of_nat_aux_value (f n : nat) (acc : string) :
  (n < f)%nat ->
  exists k, 0 <= k /\ forall a seen,
    digits_prefix 10 (string_of_nat_aux f n acc) a seen
    = digits_prefix 10 acc (a * 10 ^ k + Z.of_nat n) true.
Proof.
  revert n acc. induction f as [|f IH]; intros n acc Hn; [lia|]. cbn [string_of_nat_aux].
  pose proof (Nat.div_mod_eq n 10) as Hdm.
  pose proof (Nat.mod_upper_bound n 10 ltac:(lia)) as Hm.
  destruct (n / 10 =? 0)%nat eqn:E.
  - apply Nat.eqb_eq in E. exists 1. split; [lia|]. intros a seen.
    rewrite digits_prefix_digit by exact Hm. f_equal. rewrite E in Hdm. lia.
  - apply Nat.eqb_neq in E.
    destruct (IH (n / 10)%nat (String (digit_char (n mod 10)) acc)) as [k [Hk Hval]].
    { assert (n / 10 < n)%nat by (apply Nat.div_lt; lia). lia. }
    exists (k + 1). split; [lia|]. intros a seen.
    rewrite Hval, digits_prefix_digit by exact Hm. f_equal.
    rewrite Z.pow_add_r by lia.
    replace (Z.of_nat n) with (10 * Z.of_nat (n / 10) + Z.of_nat (n mod 10)) by lia.
    ring.
Qed.

Lemma parseInt_string_of_nat (n : nat) : parseInt (string_of_nat n) = Some (Z.of_nat n).
Proof.
  unfold string_of_nat.
  destruct (string_of_nat_aux_value (S n) n EmptyString ltac:(lia)) as [k [_ Hval]].
  pose proof (string_of_nat_aux_digits (S n) n EmptyString I) as Hdig.
  pose proof (string_of_nat_aux_nonempty (S n) n EmptyString ltac:(lia)) as Hne.
  specialize (Hval 0 false). cbn [digits_prefix] in Hval.
  destruct (string_of_nat_aux (S n) n EmptyString) as [|c r]; [congruence|].
  destruct Hdig as [[d [Hd ->]] Hr].
  destruct (digit_char_facts d Hd) as (_ & Hws & Hm & Hp & Hx & HX & _ & _).
  unfold parseInt. cbn [trim_start]. rewrite Hws. cbn [strip_sign]. rewrite Hm, Hp.
  assert (Hrad : strip_radix (String (digit_char d) r) = (10, String (digit_char d) r)).
  { destruct r as [|x r]; [reflexivity|]. destruct Hr as [[d' [Hd' ->]] _].
    destruct (digit_char_facts d' Hd') as (_ & _ & _ & _ & Hx' & HX' & _ & _).
    cbn [strip_radix]. rewrite Hx', HX'. cbn [orb]. now rewrite andb_false_r. }
  rewrite Hrad. rewrite Hval. cbn [option_map]. f_equal. lia.
Qed.

Lemma split_Q_nonempty (s : string) : split_Q s <> [].
Proof.
  induction s as [|c r IH]; simpl; [discriminate|].
  destruct r as [|c' r']; [discriminate|].
  destruct (Ascii.eqb c "_" && Ascii.eqb c' "Q"); [discriminate|].
  destruct (split_Q (String c' r')); [congruence|discriminate].
Qed.

Lemma split_Q_cons2 (c c' : ascii) (r : string) :
  split_Q (String c (String c' r))
  = if Ascii.eqb c "_" && Ascii.eqb c' "Q" then EmptyString :: split_Q r
    else cons_head c (split_Q (String c' r)).
Proof. reflexivity. Qed.

Lemma split_Q_all_digits (s : string) : all_digits s -> split_Q s = [s].
Proof.
  induction s as [|c r IH]; intros Hs; [reflexivity|].
  destruct Hs as [[d [Hd ->]] Hr].
  destruct (digit_char_facts d Hd) as (_ & _ & _ & _ & _ & _ & Hu & _).
  destruct r as [|c' r']; [reflexivity|]. rewrite split_Q_cons2, Hu. cbn [andb].
  rewrite (IH Hr). reflexivity.
Qed.

Lemma cons_head_single (c : ascii) (l : list string) (x : string) :
  l <> [] -> cons_head c l = [String c x] -> l = [x].
Proof.
  destruct l as [|y ys]; [congruence|]. simpl. intros _ H. injection H as -> ->. reflexivity.
Qed.

Lemma split_Q_app (a b : string) :
  split_Q a = [a] -> split_Q (a ++ String "_" (String "Q" b)) = a :: split_Q b.
Proof.
  induction a as [|c rest IH]; intros Ha; [reflexivity|].
  destruct rest as [|c' rest'].
  - simpl. destruct (Ascii.eqb c "_"); reflexivity.
  - change (split_Q (String c (String c' (rest' ++ String "_" (String "Q" b))))
            = String c (String c' rest') :: split_Q b).
    rewrite split_Q_cons2 in Ha |- *.
    destruct (Ascii.eqb c "_" && Ascii.eqb c' "Q"); [discriminate Ha|].
    apply cons_head_single in Ha; [|apply split_Q_nonempty].
    change (String c' rest' ++ String "_" (String "Q" b))%string
      with (String c' (rest' ++ String "_" (String "Q" b)))%string in IH.
    rewrite (IH Ha). reflexivity.
Qed.

Lemma qIndex_question_id (tid : string) (idx : nat) :
  split_Q tid = [tid] -> qIndex (question_id tid idx) = Some (Z.of_nat idx).
Proof.
  intros Ht. unfold qIndex, question_id.
  change ("_Q" ++ string_of_nat (S idx))%string
    with (String "_" (String "Q" (string_of_nat (S idx)))).
  rewrite split_Q_app by exact Ht.
  rewrite split_Q_all_digits by apply string_of_nat_aux_digits, I.
  cbn [nth]. rewrite parseInt_string_of_nat. cbn [option_map]. f_equal. lia.
Qed.

Lemma find_topic_some (subjects : list Subject) (tid : string) (s : Subject) (t : Topic) :
  find_topic subjects tid = Some (s, t) -> topic_id t = tid.
Proof.
  induction subjects as [|s0 ss IH]; simpl; [discriminate|].
  destruct (find _ (topics s0)) as [t0|] eqn:E.
  - intros H. injection H as <- <-. apply find_some in E as [_ E].
    now apply String.eqb_eq in E.
  - exact IH.
Qed.

Lemma resolve_question_id (subjects : list Subject) (tid : string) (s : Subject) (t : Topic)
    (idx : nat) (q : Question) :
  find_topic subjects tid = Some (s, t) -> split_Q tid = [tid] ->
  nth_error (questions t) idx = Some q ->
  resolve subjects (JStr tid) (JStr (question_id tid idx))
  = if String.eqb (answer q) "" then Missing
    else Found (answer q) (subject_name s) (title t) tid (question_id tid idx).
Proof.
  intros Hf Ht Hq. unfold resolve. rewrite Hf, qIndex_question_id by exact Ht.
  unfold index. replace (0 <=? Z.of_nat idx) with true by (symmetry; apply Z.leb_le; lia).
  rewrite Nat2Z.id, Hq. reflexivity.
Qed.

Lemma append_cancel_l (a b c : string) : (a ++ b = a ++ c)%string -> b = c.
Proof. induction a as [|x a IH]; simpl; [auto|]. intros H. injection H. exact IH. Qed.

(** Two indices of a topic never share a question id, whatever the
    topic id. *)
Lemma question_id_inj_all (tid : string) (i j : nat) :
  question_id tid i = question_id tid j -> i = j.
Proof.
  unfold question_id. intros H.
  apply append_cancel_l, (append_cancel_l "_Q") in H.
  apply (f_equal parseInt) in H. rewrite !parseInt_string_of_nat in H.
  injection H. lia.
Qed.

Lemma nth_error_mapi_from {A B} (f : nat -> A -> B) (i : nat) (l : list A) (k : nat) :
  nth_error (mapi_from f i l) k = option_map (f (i + k)%nat) (nth_error l k).
Proof.
  revert i k. induction l as [|x xs IH]; intros i k; [destruct k; reflexivity|].
  destruct k as [|k]; simpl; [now rewrite Nat.add_0_r|].
  rewrite IH. now rewrite Nat.add_succ_r.
Qed.

Lemma length_mapi_from {A B} (f : nat -> A -> B) (i : nat) (l : list A) :
  List.length (mapi_from f i l) = List.length l.
Proof. revert i. induction l; simpl; auto. Qed.

Lemma Qfloor_range (x : Q) (n : Z) : (0 <= x)%Q -> (x < inject_Z n)%Q -> 0 <= Qfloor x < n.
Proof.
  intros H0 Hn. pose proof (Qfloor_le x) as Hl. pose proof (Qlt_floor x) as Hu. split.
  - assert (Hq : (inject_Z 0 < inject_Z (Qfloor x + 1))%Q)
      by (apply Qle_lt_trans with x; [exact H0|exact Hu]).
    rewrite <- Zlt_Qlt in Hq. lia.
  - assert (Hq : (inject_Z (Qfloor x) < inject_Z n)%Q)
      by (apply Qle_lt_trans with x; [exact Hl|exact Hn]).
    now rewrite <- Zlt_Qlt in Hq.
Qed.

Lemma Qfloor_eq_Z (x : Q) (k : Z) : (x == inject_Z k)%Q -> Qfloor x = k.
Proof.
  intros H. apply Z.le_antisymm.
  - rewrite <- (Qfloor_Z k). apply Qfloor_resp_le. rewrite H. apply Qle_refl.
  - rewrite <- (Qfloor_Z k) at 1. apply Qfloor_resp_le. rewrite H. apply Qle_refl.
Qed.

Lemma available_spec (t : Topic) (ids : list string) (idx : nat) :
  In idx (available_indices t ids)
  <-> (idx < List.length (questions t))%nat /\ ~ In (question_id (topic_id t) idx) ids.
Proof.
  unfold available_indices. rewrite filter_In, in_seq, negb_true_iff.
  split.
  - intros [Hr He]. split; [lia|]. intros Hin.
    assert (existsb (String.eqb (question_id (topic_id t) idx)) ids = true)
      by (apply existsb_exists; exists (question_id (topic_id t) idx);
          split; [exact Hin|apply String.eqb_refl]).
    congruence.
  - intros [Hr Hn]. split; [lia|].
    destruct (existsb _ ids) eqn:E; [|reflexivity].
    apply existsb_exists in E as [x [Hx Heq]]. apply String.eqb_eq in Heq. subst x.
    contradiction.
Qed.

Lemma random_question_eq (subjects : list Subject) (tid : string) (s : Subject) (t : Topic)
    (answered : QueryVal) (ids : list string) (random : Q) :
  find_topic subjects tid = Some (s, t) -> answered_ids answered = Some ids ->
  available_indices t ids <> [] ->
  random_question subjects tid answered random
  = match index (available_indices t ids)
                (Some (Qfloor (random * inject_Z (Z.of_nat (List.length (available_indices t ids)))))) with
    | None => QuizError
    | Some ri => match nth_error (questions t) ri with
                 | None => QuizError
                 | Some q => Picked (question_id (topic_id t) ri) (topic_id t) (title t)
                                    (subject_name s) q ri
                 end
    end.
Proof.
  intros Hf Ha Hne. unfold random_question. rewrite Hf, Ha. cbv zeta.
  destruct (available_indices t ids); [congruence|reflexivity].
Qed.

Lemma random_question_done (subjects : list Subject) (tid : string) (s : Subject) (t : Topic)
    (answered : QueryVal) (ids : list string) (random : Q) :
  find_topic subjects tid = Some (s, t) -> answered_ids answered = Some ids ->
  available_indices t ids = [] ->
  random_question subjects tid answered random = Completed (List.length (questions t)).
Proof. intros Hf Ha He. unfold random_question. rewrite Hf, Ha. cbv zeta. now rewrite He. Qed.

(** Extra: [GET /api/quiz/topics/:topicId] lists one id per question,
    [`${topicId}_Q${index + 1}`], no two equal; for a topic id without
    ["_Q"] in it, each listed id, sent back to [submit-answer], looks up
    exactly that question: its stored answer, or the 404 path for an empty
    answer. *)
Theorem topic_detail_ids (subjects : list Subject) (tid tid' ttl sn : string)
    (qs : list (string * Question)) :
  topic_detail subjects tid = TopicFound tid' ttl sn qs ->
  tid' = tid /\ NoDup (map fst qs) /\
  forall i id q, nth_error qs i = Some (id, q) ->
    id = question_id tid i /\
    (split_Q tid = [tid] ->
     resolve subjects (JStr tid) (JStr id)
     = if String.eqb (answer q) "" then Missing else Found (answer q) sn ttl tid id).
Proof.
  unfold topic_detail. intros H.
  destruct (find_topic subjects tid) as [[s t]|] eqn:Hf; [|discriminate].
  injection H as <- <- <- <-. pose proof (find_topic_some _ _ _ _ Hf) as Htid.
  rewrite Htid. split; [reflexivity|]. split.
  - apply NoDup_nth_error. intros i j Hi Hij.
    rewrite length_map, length_mapi_from in Hi.
    rewrite !nth_error_map, !nth_error_mapi_from in Hij.
    destruct (nth_error (questions t) i) eqn:Ei;
      [|apply nth_error_None in Ei; lia].
    destruct (nth_error (questions t) j) eqn:Ej; [|discriminate].
    injection Hij as Hij. apply question_id_inj_all in Hij. lia.
  - intros i id q Hq. rewrite nth_error_mapi_from in Hq.
    destruct (nth_error (questions t) i) as [q'|] eqn:Ei; [|discriminate].
    injection Hq as <- <-. split; [reflexivity|].
    intros Ht. now apply resolve_question_id.
Qed.

Lemma topic_detail_ids_witness :
  topic_detail bank "math_algebra"
    = TopicFound "math_algebra" "Algebra" "Mathematics"
        [("math_algebra_Q1"%string, {| answer := "a " |});
         ("math_algebra_Q2"%string, {| answer := "B" |});
         ("math_algebra_Q3"%string, {| answer := "" |})] /\
  NoDup ["math_algebra_Q1"%string; "math_algebra_Q2"%string; "math_algebra_Q3"%string].
Proof.
  assert (H1 : topic_detail bank "math_algebra"
    = TopicFound "math_algebra" "Algebra" "Mathematics"
        [("math_algebra_Q1"%string, {| answer := "a " |});
         ("math_algebra_Q2"%string, {| answer := "B" |});
         ("math_algebra_Q3"%string, {| answer := "" |})]) by (vm_compute; reflexivity).
  split; [exact H1|].
  exact (proj1 (proj2 (topic_detail_ids _ _ _ _ _ _ H1))).
Defined.

(** Extra: [GET /api/quiz/topics/:topicId/question] only serves a question
    of the requested topic whose id is not in [answered], in range, under
    the id [`${topic_id}_Q${index + 1}`]; for a topic id without ["_Q"],
    submitting that id looks up the served question. *)
Theorem random_question_picked (subjects : list Subject) (tid : string) (answered : QueryVal)
    (ids : list string) (random : Q) (id tid' ttl sn : string) (q : Question) (idx : nat) :
  answered_ids answered = Some ids ->
  random_question subjects tid answered random = Picked id tid' ttl sn q idx ->
  exists s t, find_topic subjects tid = Some (s, t) /\ tid' = tid /\ ttl = title t /\
    sn = subject_name s /\ nth_error (questions t) idx = Some q /\
    id = question_id tid idx /\ ~ In id ids /\
    (split_Q tid = [tid] ->
     resolve subjects (JStr tid) (JStr id)
     = if String.eqb (answer q) "" then Missing else Found (answer q) sn ttl tid id).
Proof.
  intros Ha H.
  destruct (find_topic subjects tid) as [[s t]|] eqn:Hf;
    [|unfold random_question in H; rewrite Hf in H; discriminate].
  pose proof (find_topic_some _ _ _ _ Hf) as Htid.
  destruct (available_indices t ids) as [|i0 rest] eqn:Hav.
  { rewrite (random_question_done _ _ _ _ _ _ random Hf Ha Hav) in H. discriminate. }
  rewrite (random_question_eq _ _ _ _ _ _ random Hf Ha) in H by congruence.
  destruct (index _ _) as [ri|] eqn:Hi; [|discriminate].
  destruct (nth_error (questions t) ri) as [q'|] eqn:Hq; [|discriminate].
  injection H as <- <- <- <- <- <-.
  assert (Hin : In ri (available_indices t ids)).
  { unfold index in Hi. destruct (0 <=? _); [|discriminate].
    eapply nth_error_In. exact Hi. }
  apply available_spec in Hin as [_ Hnot]. rewrite Htid in *.
  exists s, t. repeat split; auto.
  intros Ht. now apply resolve_question_id.
Qed.

Lemma random_question_picked_witness :
  answered_ids (QStr "math_algebra_Q2") = Some ["math_algebra_Q2"%string] /\
  random_question bank "math_algebra" (QStr "math_algebra_Q2") (1 # 2)
    = Picked "math_algebra_Q3" "math_algebra" "Algebra" "Mathematics" {| answer := "" |} 2 /\
  ~ In "math_algebra_Q3"%string ["math_algebra_Q2"%string].
Proof.
  assert (H1 : answered_ids (QStr "math_algebra_Q2") = Some ["math_algebra_Q2"%string])
    by reflexivity.
  assert (H2 : random_question bank "math_algebra" (QStr "math_algebra_Q2") (1 # 2)
    = Picked "math_algebra_Q3" "math_algebra" "Algebra" "Mathematics" {| answer := "" |} 2)
    by (vm_compute; reflexivity).
  split; [exact H1|]. split; [exact H2|].
  destruct (random_question_picked _ _ _ _ _ _ _ _ _ _ _ H1 H2)
    as (s & t & _ & _ & _ & _ & _ & _ & Hn & _).
  exact Hn.
Defined.

(** Extra: for a found topic, a usable [answered] value and [Math.random()]
    in [[0, 1)], the random-question route either reports completion, exactly
    when every question's id is in [answered], or serves an unanswered
    question; it never fails. *)
Theorem random_question_outcome (subjects : list Subject) (tid : string) (s : Subject)
    (t : Topic) (answered : QueryVal) (ids : list string) (random : Q) :
  find_topic subjects tid = Some (s, t) -> answered_ids answered = Some ids ->
  (0 <= random < 1)%Q ->
  (random_question subjects tid answered random = Completed (List.length (questions t)) /\
   forall idx, (idx < List.length (questions t))%nat -> In (question_id tid idx) ids) \/
  (exists idx q, random_question subjects tid answered random
                 = Picked (question_id tid idx) tid (title t) (subject_name s) q idx /\
   (idx < List.length (questions t))%nat /\ nth_error (questions t) idx = Some q /\
   ~ In (question_id tid idx) ids).
Proof.
  intros Hf Ha [Hr0 Hr1]. pose proof (find_topic_some _ _ _ _ Hf) as Htid.
  destruct (available_indices t ids) as [|i0 rest] eqn:Hav.
  - left. split; [exact (random_question_done _ _ _ _ _ _ random Hf Ha Hav)|].
    intros idx Hidx. destruct (In_dec String.string_dec (question_id tid idx) ids) as [Hin|Hn];
      [exact Hin|].
    exfalso. assert (Hin : In idx (available_indices t ids))
      by (apply available_spec; rewrite Htid; split; assumption).
    rewrite Hav in Hin. exact Hin.
  - right. rewrite (random_question_eq _ _ _ _ _ _ random Hf Ha) by congruence.
    rewrite Hav.
    set (L := Z.of_nat (List.length (i0 :: rest))).
    assert (HL : 0 < L) by (unfold L; simpl; lia).
    destruct (Qfloor_range (random * inject_Z L) L) as [Hk0 HkL].
    { apply Qmult_le_0_compat; [exact Hr0|]. change 0%Q with (inject_Z 0). rewrite <- Zle_Qle. lia. }
    { rewrite <- (Qmult_1_l (inject_Z L)) at 2. apply Qmult_lt_compat_r; [|exact Hr1].
      change 0%Q with (inject_Z 0). rewrite <- Zlt_Qlt. exact HL. }
    unfold index. replace (0 <=? Qfloor (random * inject_Z L)) with true
      by (symmetry; apply Z.leb_le; exact Hk0).
    destruct (nth_error (i0 :: rest) (Z.to_nat (Qfloor (random * inject_Z L)))) as [ri|] eqn:Hri.
    2: { apply nth_error_None in Hri.
         assert (HLn : L = Z.of_nat (List.length (i0 :: rest))) by reflexivity. lia. }
    assert (Hin : In ri (available_indices t ids))
      by (rewrite Hav; eapply nth_error_In; exact Hri).
    apply available_spec in Hin as [Hlt Hnot].
    destruct (nth_error (questions t) ri) as [q|] eqn:Hq.
    2: { apply nth_error_None in Hq. lia. }
    rewrite Htid in *. exists ri, q. split; [reflexivity|]. split; [exact Hlt|].
    split; [exact Hq|exact Hnot].
Qed.

Lemma random_question_outcome_witness :
  exists s t, find_topic bank "math_algebra" = Some (s, t) /\
  ((random_question bank "math_algebra" (QStr "math_algebra_Q2") (1 # 2)
      = Completed (List.length (questions t)) /\
    forall idx, (idx < List.length (questions t))%nat ->
      In (question_id "math_algebra" idx) ["math_algebra_Q2"%string]) \/
   (exists idx q, random_question bank "math_algebra" (QStr "math_algebra_Q2") (1 # 2)
                  = Picked (question_id "math_algebra" idx) "math_algebra" (title t)
                           (subject_name s) q idx /\
    (idx < List.length (questions t))%nat /\ nth_error (questions t) idx = Some q /\
    ~ In (question_id "math_algebra" idx) ["math_algebra_Q2"%string])).
Proof.
  eexists. eexists. split; [reflexivity|].
  apply (random_question_outcome bank "math_algebra" _ _ (QStr "math_algebra_Q2")
           ["math_algebra_Q2"%string] (1 # 2)); [reflexivity|reflexivity|].
  lra.
Defined.

(** Extra: every question of a topic whose id is not in [answered] is
    served by the random-question route for some value of [Math.random()]
    in [[0, 1)]. *)
Theorem random_question_reaches (subjects : list Subject) (tid : string) (s : Subject)
    (t : Topic) (answered : QueryVal) (ids : list string) (idx : nat) (q : Question) :
  find_topic subjects tid = Some (s, t) -> answered_ids answered = Some ids ->
  nth_error (questions t) idx = Some q -> ~ In (question_id tid idx) ids ->
  exists random, (0 <= random < 1)%Q /\
    random_question subjects tid answered random
    = Picked (question_id tid idx) tid (title t) (subject_name s) q idx.
Proof.
  intros Hf Ha Hq Hn. pose proof (find_topic_some _ _ _ _ Hf) as Htid.
  assert (Hin : In idx (available_indices t ids)).
  { apply available_spec. rewrite Htid. split; [|exact Hn].
    apply nth_error_Some. congruence. }
  apply In_nth_error in Hin as [k Hk].
  set (L := List.length (available_indices t ids)) in *.
  assert (HkL : (k < L)%nat) by (apply nth_error_Some; congruence).
  exists (inject_Z (Z.of_nat k) / inject_Z (Z.of_nat L))%Q.
  assert (HL : (0 < inject_Z (Z.of_nat L))%Q)
    by (change 0%Q with (inject_Z 0); rewrite <- Zlt_Qlt; lia).
  split; [split|].
  - apply Qle_shift_div_l; [exact HL|]. rewrite Qmult_0_l. change 0%Q with (inject_Z 0). rewrite <- Zle_Qle. lia.
  - apply Qlt_shift_div_r; [exact HL|]. rewrite Qmult_1_l, <- Zlt_Qlt. lia.
  - rewrite (random_question_eq _ _ _ _ _ _ _ Hf Ha)
      by (intros He; unfold L in HkL; rewrite He in HkL; simpl in HkL; lia).
    fold L.
    rewrite (Qfloor_eq_Z _ (Z.of_nat k)).
    2: { field. intros H0. rewrite H0 in HL. discriminate HL. }
    unfold index. replace (0 <=? Z.of_nat k) with true by (symmetry; apply Z.leb_le; lia).
    rewrite Nat2Z.id, Hk, Hq, Htid. reflexivity.
Qed.

Lemma random_question_reaches_witness :
  exists s t, find_topic bank "math_algebra" = Some (s, t) /\
  exists random, (0 <= random < 1)%Q /\
    random_question bank "math_algebra" QMissing random
    = Picked (question_id "math_algebra" 1) "math_algebra" (title t) (subject_name s)
             {| answer := "B" |} 1.
Proof.
  eexists. eexists. split; [reflexivity|].
  apply (random_question_reaches bank "math_algebra" _ _ QMissing []); reflexivity || (intros []).
Defined.

End QuizProps.

(** ** Store invariants of the submission handler *)
Module StoreProps.
Import SubmitFacts.

(** The writes a submission leaves: none (404), a prefix of its planned
    writes (500), or all of them (200). *)
Lemma submit_outcome_writes (env : Env) (req : Request) (db db' : DB) (r : Response) :
  submit_answer env req db = (r, db') ->
  (r = NotFound /\ db' = db) \/
  (r = ServerError /\ exists k, db' = apply_writes (firstn k (planned_writes env req db)) db) \/
  ((exists isC ca m a c st, r = Ok isC ca m a c st) /\
   db' = apply_writes (planned_writes env req db) db).
Proof.
  intros H.
  unfold submit_answer, submit_body, planned_writes, prior_progress in *.
  destruct (resolve _ _ _) as [ca sname ttitle tid qid| |] eqn:Hres; simpl in H.
  - destruct (userAnswer req) as [ua|] eqn:Hua; simpl in H.
    + cbv [bind ret throw attempt_create progress_findOne progress_create
           progress_save user_findById user_save find_progress find_user] in *.
      simpl in H.
      repeat match type of H with
      | context [castNumber ?v] => destruct (castNumber v) eqn:?; simpl in H
      | context [attempt_valid ?a] => destruct (attempt_valid a) eqn:?; simpl in H
      | context [progress_valid ?p] => destruct (progress_valid p) eqn:?; simpl in H
      | context [fails ?e ?f] => destruct (fails e f) eqn:?; simpl in H
      | context [find ?p (db_progress db)] => destruct (find p (db_progress db)) eqn:?; simpl in H
      | context [find ?p (db_users db)] => destruct (find p (db_users db)) eqn:?; simpl in H
      | context [Qle_bool ?x ?y] => destruct (Qle_bool x y) eqn:?; simpl in H
      end;
      injection H as <- <-;
      first
        [ right; right; split; [do 6 eexists; reflexivity | reflexivity]
        | right; left; split; [reflexivity|];
          first [ exists 0%nat; reflexivity | exists 1%nat; reflexivity
                | exists 2%nat; reflexivity | exists 3%nat; reflexivity ] ].
    + injection H as <- <-. right; left. split; [reflexivity|]. now exists 0%nat.
  - injection H as <- <-. now left.
  - injection H as <- <-. right; left. split; [reflexivity|]. now exists 0%nat.
Qed.

Lemma submit_prefix (env : Env) (req : Request) (db db' : DB) (r : Response) :
  submit_answer env req db = (r, db') ->
  exists k, db' = apply_writes (firstn k (planned_writes env req db)) db.
Proof.
  intros H. apply submit_outcome_writes in H as [[_ ->]|[[_ [k ->]]|[_ ->]]].
  - now exists 0%nat.
  - now exists k.
  - exists (List.length (planned_writes env req db)). now rewrite firstn_all.
Qed.

(** Split on everything the planned writes depend on, and on how many of
    them were applied. *)
Ltac prefix_cases k :=
  unfold planned_writes, prior_progress;
  destruct (resolve _ _ _) as [? ? ? ? ?| |] eqn:?;
  [ destruct (userAnswer _) as [?|];
    [ destruct (castNumber _) as [?|];
      [ destruct (find_progress _ _ _) eqn:?; destruct (find_user _ _) eqn:?;
        destruct k as [|[|[|[|k]]]]; cbn [app firstn]; rewrite ?firstn_nil
      | rewrite firstn_nil ]
    | rewrite firstn_nil ]
  | rewrite firstn_nil | rewrite firstn_nil ];
  cbn [apply_writes fold_left apply_write]; cbn [db_progress db_users db_attempts].

Lemma resolve_found_ids (subjects : list Subject) (t q : JSVal)
    (ca sname ttitle tid qid : string) :
  resolve subjects t q = Found ca sname ttitle tid qid -> t = JStr tid.
Proof.
  unfold resolve. destruct t as [t|]; [|discriminate].
  destruct (find_topic subjects t) as [[s tp]|]; [|discriminate].
  destruct q as [q|]; [|discriminate].
  destruct (index _ _) as [x|]; [|discriminate].
  destruct (String.eqb _ _); [discriminate|]. intros H. now injection H as _ _ _ <- _.
Qed.

Lemma same_key_key (uid : nat) (tid : string) (p : Progress) :
  same_key uid tid p = true <-> progress_key p = (uid, tid).
Proof.
  unfold same_key, progress_key. rewrite andb_true_iff, Nat.eqb_eq, String.eqb_eq.
  split; [intros [-> ->]; reflexivity|intros H; injection H as -> ->; split; reflexivity].
Qed.

Lemma same_key_own (p : Progress) (uid : nat) (tid : string) :
  progress_key p = (uid, tid) -> same_key (p_userId p) (p_topicId p) = same_key uid tid.
Proof. unfold progress_key. intros H. injection H as -> ->. reflexivity. Qed.

Lemma keys_save_progress (p : Progress) (l : list Progress) (k : nat * string) :
  In k (map progress_key (save_progress p l)) -> k = progress_key p \/ In k (map progress_key l).
Proof.
  induction l as [|q qs IH]; simpl.
  - intros [<-|[]]. now left.
  - destruct (same_key (p_userId p) (p_topicId p) q); simpl.
    + intros [<-|H]; [now left|right; now right].
    + intros [<-|H]; [right; now left|]. destruct (IH H) as [E|E]; [now left|right; now right].
Qed.

Lemma NoDup_save_progress (p : Progress) (l : list Progress) :
  NoDup (map progress_key l) -> NoDup (map progress_key (save_progress p l)).
Proof.
  induction l as [|q qs IH]; intros Hn; simpl; [constructor; [intros []|constructor]|].
  inversion Hn as [|? ? Hq Hqs]; subst.
  destruct (same_key (p_userId p) (p_topicId p) q) eqn:E; simpl.
  - apply same_key_key in E.
    assert (Ek : progress_key p = progress_key q) by (rewrite E; reflexivity).
    simpl. rewrite Ek. constructor; assumption.
  - constructor; [|now apply IH].
    intros Hin. apply keys_save_progress in Hin as [Hin|Hin]; [|contradiction].
    assert (same_key (p_userId p) (p_topicId p) q = true) by (apply same_key_key; now rewrite Hin).
    congruence.
Qed.

Lemma NoDup_append_absent (uid : nat) (tid : string) (p : Progress) (l : list Progress) :
  NoDup (map progress_key l) -> find (same_key uid tid) l = None ->
  progress_key p = (uid, tid) -> NoDup (map progress_key (l ++ [p])).
Proof.
  intros Hn Hf Hp. rewrite map_app. simpl.
  apply Permutation_NoDup with (progress_key p :: map progress_key l);
    [apply Permutation_cons_append|].
  constructor; [|exact Hn]. intros Hin. apply in_map_iff in Hin as [q [Hq Hin]].
  assert (same_key uid tid q = true) by (apply same_key_key; congruence).
  pose proof (find_none _ _ Hf q Hin). congruence.
Qed.

Lemma find_key_unique (uid : nat) (tid : string) (p : Progress) (l : list Progress) :
  NoDup (map progress_key l) -> In p l -> progress_key p = (uid, tid) ->
  find (same_key uid tid) l = Some p.
Proof.
  induction l as [|q qs IH]; intros Hn Hin Hk; [destruct Hin|].
  inversion Hn as [|? ? Hq Hqs]; subst. simpl.
  destruct Hin as [<-|Hin].
  - now rewrite (proj2 (same_key_key _ _ _) Hk).
  - destruct (same_key uid tid q) eqn:E; [|now apply IH].
    apply same_key_key in E. exfalso. apply Hq. rewrite E, <- Hk. now apply in_map.
Qed.

Lemma find_save_progress_other (uid : nat) (tid : string) (p : Progress) (l : list Progress) :
  progress_key p <> (uid, tid) ->
  find (same_key uid tid) (save_progress p l) = find (same_key uid tid) l.
Proof.
  intros Hp. induction l as [|q qs IH]; simpl.
  - destruct (same_key uid tid p) eqn:E; [apply same_key_key in E; contradiction|reflexivity].
  - destruct (same_key (p_userId p) (p_topicId p) q) eqn:E; simpl.
    + apply same_key_key in E.
      destruct (same_key uid tid p) eqn:E1; [apply same_key_key in E1; contradiction|].
      destruct (same_key uid tid q) eqn:E2; [apply same_key_key in E2; unfold progress_key in *; congruence|].
      reflexivity.
    + destruct (same_key uid tid q); [reflexivity|exact IH].
Qed.

Lemma find_append_other (uid : nat) (tid : string) (p : Progress) (l : list Progress) :
  progress_key p <> (uid, tid) ->
  find (same_key uid tid) (l ++ [p]) = find (same_key uid tid) l.
Proof.
  intros Hp. induction l as [|q qs IH]; simpl.
  - destruct (same_key uid tid p) eqn:E; [apply same_key_key in E; contradiction|reflexivity].
  - destruct (same_key uid tid q); [reflexivity|exact IH].
Qed.

Lemma find_save_user_other (uid : nat) (u : User) (l : list User) :
  u_id u <> uid ->
  find (fun v => Nat.eqb (u_id v) uid) (save_user u l) = find (fun v => Nat.eqb (u_id v) uid) l.
Proof.
  intros Hu. induction l as [|v vs IH]; simpl.
  - destruct (Nat.eqb (u_id u) uid) eqn:E; [apply Nat.eqb_eq in E; contradiction|reflexivity].
  - destruct (Nat.eqb (u_id v) (u_id u)) eqn:E; simpl.
    + apply Nat.eqb_eq in E. rewrite E.
      destruct (Nat.eqb (u_id u) uid) eqn:E1; [apply Nat.eqb_eq in E1; contradiction|reflexivity].
    + destruct (Nat.eqb (u_id v) uid); [reflexivity|exact IH].
Qed.

Lemma find_user_id (db : DB) (uid : nat) (u : User) : find_user db uid = Some u -> u_id u = uid.
Proof. unfold find_user. intros H. apply find_some in H as [_ H]. now apply Nat.eqb_eq. Qed.

Lemma find_progress_key (db : DB) (uid : nat) (tid : string) (p : Progress) :
  find_progress db uid tid = Some p -> progress_key p = (uid, tid).
Proof. unfold find_progress. intros H. apply find_some in H as [_ H]. now apply same_key_key. Qed.

Lemma find_progress_in (db : DB) (uid : nat) (tid : string) (p : Progress) :
  find_progress db uid tid = Some p -> In p (db_progress db).
Proof. unfold find_progress. intros H. now apply find_some in H as [H _]. Qed.

Lemma prefix_keys_unique (env : Env) (req : Request) (db : DB) (k : nat) :
  keys_unique db -> keys_unique (apply_writes (firstn k (planned_writes env req db)) db).
Proof.
  intros Hk. unfold keys_unique in *. prefix_cases k.
  all: repeat first
    [ exact Hk
    | apply NoDup_save_progress
    | eapply NoDup_append_absent;
      [ exact Hk | unfold find_progress in *; eassumption | reflexivity ] ].
Qed.

Definition in_range (p : Progress) : Prop :=
  (0 <= mastery p <= 1)%Q /\ (0 <= emaAlpha p <= 1)%Q.

Lemma Forall_save_progress (P : Progress -> Prop) (p : Progress) (l : list Progress) :
  Forall P l -> P p -> Forall P (save_progress p l).
Proof.
  intros Hl Hp. induction Hl as [|q qs Hq Hqs IH]; simpl; [now constructor|].
  destruct (same_key _ _ q); constructor; assumption.
Qed.

Lemma update_in_range (now : Z) (isC : bool) (p : Progress) :
  in_range p -> in_range (update_progress now isC p).
Proof.
  intros [Hm Ha]. split; [|exact Ha]. simpl. apply MasteryProps.newMastery_bounds; assumption.
Qed.

Lemma fresh_in_range (uid : nat) (tid sname ttitle : string) :
  in_range (fresh_progress uid tid sname ttitle).
Proof. unfold in_range, fresh_progress. simpl. lra. Qed.

Lemma prefix_in_range (env : Env) (req : Request) (db : DB) (k : nat) :
  values_in_range db -> values_in_range (apply_writes (firstn k (planned_writes env req db)) db).
Proof.
  intros Hv. unfold values_in_range in *. prefix_cases k.
  all: try exact Hv.
  all: repeat first
    [ apply Forall_save_progress
    | apply Forall_app; split
    | apply Forall_cons
    | apply Forall_nil
    | exact Hv
    | apply fresh_in_range
    | apply update_in_range ].
  all: match goal with
       | Hf : find_progress _ _ _ = Some ?p |- in_range ?p =>
           apply find_progress_in in Hf; rewrite Forall_forall in Hv; exact (Hv _ Hf)
       end.
Qed.


Lemma resolve_found_answer (subjects : list Subject) (t q : JSVal)
    (ca sname ttitle tid qid : string) :
  resolve subjects t q = Found ca sname ttitle tid qid -> nonempty ca = true.
Proof.
  unfold resolve. destruct t as [t|]; [|discriminate].
  destruct (find_topic subjects t) as [[s tp]|]; [|discriminate].
  destruct q as [q|]; [|discriminate].
  destruct (index _ _) as [x|]; [|discriminate].
  destruct (String.eqb (answer x) "") eqn:E; [discriminate|].
  intros H. injection H as <- _ _ _ _. unfold nonempty. now rewrite E.
Qed.

Lemma progress_valid_iff (p : Progress) :
  progress_valid p = true <->
  nonempty (p_topicId p) = true /\ nonempty (subjectName p) = true /\
  nonempty (topicTitle p) = true /\ (0 <= mastery p <= 1)%Q.
Proof.
  unfold progress_valid. rewrite !andb_true_iff, !Qle_bool_iff. tauto.
Qed.

Lemma save_check_passes (now : Z) (isC : bool) (p : Progress) :
  progress_valid p = true -> (0 <= emaAlpha p <= 1)%Q ->
  progress_valid (update_progress now isC p) = true.
Proof.
  rewrite !progress_valid_iff. intros (H1 & H2 & H3 & Hm) Ha.
  split; [exact H1|]. split; [exact H2|]. split; [exact H3|].
  apply MasteryProps.newMastery_bounds; assumption.
Qed.

Lemma fresh_valid (uid : nat) (tid sname ttitle : string) :
  nonempty tid = true -> nonempty sname = true -> nonempty ttitle = true ->
  progress_valid (fresh_progress uid tid sname ttitle) = true.
Proof.
  intros H1 H2 H3. apply progress_valid_iff. cbn. split; [exact H1|].
  split; [exact H2|]. split; [exact H3|]. lra.
Qed.

Lemma submit_runs (env : Env) (req : Request) (db : DB)
    (ca sname ttitle tid qid ua : string) (u : User) :
  (forall f, fails env f = false) ->
  resolve (subjects env) (topicId req) (questionId req) = Found ca sname ttitle tid qid ->
  userAnswer req = JStr ua ->
  castNumber (timeTaken req) <> None ->
  nonempty ua = true -> nonempty tid = true -> nonempty qid = true ->
  nonempty sname = true -> nonempty ttitle = true ->
  find_user db (req_userId req) = Some u ->
  values_in_range db ->
  Forall (fun p => progress_valid p = true) (db_progress db) ->
  exists m a c st, fst (submit_answer env req db)
                   = Ok (String.eqb (toUpperCase ua) (toUpperCase ca)) ca m a c st.
Proof.
  intros Hf Hres Hua Hcast Hnua Hntid Hnqid Hnsn Hntt Hu Hv Hval.
  pose proof (resolve_found_answer _ _ _ _ _ _ _ _ Hres) as Hnca.
  destruct (castNumber (timeTaken req)) as [tm|] eqn:Ht; [|congruence].
  unfold submit_answer, submit_body. rewrite Hres, Hua, Ht.
  cbv [bind ret throw attempt_create progress_findOne progress_create
       progress_save user_findById user_save]. rewrite !Hf.
  unfold attempt_valid at 1. cbn [att_topicId att_questionId att_userAnswer att_correctAnswer].
  rewrite Hntid, Hnqid, Hnua, Hnca. cbn [orb negb andb].
  cbn. unfold find_user in Hu.
  destruct (find (same_key (req_userId req) tid) (db_progress db)) as [p|] eqn:Hp; cbn.
  - apply find_some in Hp as [Hin _].
    unfold values_in_range in Hv. rewrite Forall_forall in Hv, Hval.
    rewrite (save_check_passes _ _ p (Hval p Hin) (proj2 (Hv p Hin))).
    cbn. rewrite Hu. cbn. do 4 eexists. reflexivity.
  - rewrite (fresh_valid _ _ _ _ Hntid Hnsn Hntt). cbn.
    rewrite (save_check_passes _ _ _ (fresh_valid _ _ _ _ Hntid Hnsn Hntt)) by (cbn; lra).
    cbn. rewrite Hu. cbn. do 4 eexists. reflexivity.
Qed.

(** Extra: with the storage available, a resolved question, a non-empty
    string answer, a [timeTaken] that casts to a Number, a non-empty topic
    id, question id, subject name and topic title, an existing user, and
    stored Progress records that pass the schema's validators with
    smoothing factors in [[0, 1]], the submission succeeds: no validator
    rejects the writes. *)
Theorem submit_succeeds (env : Env) (req : Request) (db : DB)
    (ca sname ttitle tid qid ua : string) (u : User) :
  (forall f, fails env f = false) ->
  resolve (subjects env) (topicId req) (questionId req) = Found ca sname ttitle tid qid ->
  userAnswer req = JStr ua ->
  castNumber (timeTaken req) <> None ->
  nonempty ua = true -> nonempty tid = true -> nonempty qid = true ->
  nonempty sname = true -> nonempty ttitle = true ->
  find_user db (req_userId req) = Some u ->
  values_in_range db ->
  Forall (fun p => progress_valid p = true) (db_progress db) ->
  exists isC m a c st, fst (submit_answer env req db) = Ok isC ca m a c st.
Proof.
  intros Hf Hres Hua Hcast H1 H2 H3 H4 H5 Hu Hv Hval.
  destruct (submit_runs env req db ca sname ttitle tid qid ua u
              Hf Hres Hua Hcast H1 H2 H3 H4 H5 Hu Hv Hval)
    as (m & a & c & st & H).
  now exists (String.eqb (toUpperCase ua) (toUpperCase ca)), m, a, c, st.
Qed.

Lemma written_key_neq (req : Request) (tid0 : string) (uid : nat) (tid : string) (p : Progress) :
  topicId req = JStr tid0 -> (topicId req <> JStr tid \/ uid <> req_userId req) ->
  progress_key p = (req_userId req, tid0) -> progress_key p <> (uid, tid).
Proof.
  intros Ht Hne Hp E. rewrite Hp in E. injection E as <- <-.
  destruct Hne as [Hne|Hne]; [now apply Hne|now apply Hne].
Qed.

Lemma prefix_frame (env : Env) (req : Request) (db : DB) (k uid : nat) (tid : string) :
  let db' := apply_writes (firstn k (planned_writes env req db)) db in
  (topicId req <> JStr tid \/ uid <> req_userId req ->
   find_progress db' uid tid = find_progress db uid tid) /\
  (uid <> req_userId req ->
   find_user db' uid = find_user db uid /\
   filter (fun a => Nat.eqb (att_userId a) uid) (db_attempts db')
   = filter (fun a => Nat.eqb (att_userId a) uid) (db_attempts db)).
Proof.
  cbv zeta. unfold find_progress, find_user. prefix_cases k.
  all: split; [intros Hne | intros Hne; split].
  all: try reflexivity.
  all: match goal with
       | Hr : resolve _ _ _ = Found _ _ _ _ _ |- _ => apply resolve_found_ids in Hr
       end.
  all: repeat match goal with
       | |- find (same_key _ _) (save_progress _ _) = _ =>
           rewrite find_save_progress_other
       | |- find (same_key _ _) (_ ++ [_]) = _ =>
           rewrite find_append_other
       | |- find _ (save_user _ _) = _ =>
           rewrite find_save_user_other
       | |- filter _ (_ ++ [_]) = _ =>
           rewrite filter_app; cbn [filter att_userId];
           rewrite (proj2 (Nat.eqb_neq _ _) (not_eq_sym Hne)); apply app_nil_r
       end.
  all: try reflexivity.
  all: try (cbn [u_id]; erewrite find_user_id by eassumption; exact (not_eq_sym Hne)).
  all: try match goal with
       | Ht : topicId ?rq = JStr ?t0 |- progress_key _ <> _ =>
           apply (written_key_neq rq t0); [exact Ht | exact Hne |]
       end.
  all: try reflexivity.
  all: lazymatch goal with
       | |- progress_key (update_progress _ _ ?p) = _ =>
           transitivity (progress_key p); [reflexivity|eapply find_progress_key; eassumption]
       end.
Qed.

(** Extra: a submission, whatever its outcome, leaves the Progress record
    of every other (user, topic), every other user, and every other user's
    attempts unchanged. *)
Theorem submit_frame (env : Env) (req : Request) (db db' : DB) (r : Response)
    (uid : nat) (tid : string) :
  submit_answer env req db = (r, db') ->
  (topicId req <> JStr tid \/ uid <> req_userId req ->
   find_progress db' uid tid = find_progress db uid tid) /\
  (uid <> req_userId req ->
   find_user db' uid = find_user db uid /\
   filter (fun a => Nat.eqb (att_userId a) uid) (db_attempts db')
   = filter (fun a => Nat.eqb (att_userId a) uid) (db_attempts db)).
Proof. intros H. apply submit_prefix in H as [k ->]. apply prefix_frame. Qed.

(** Extra: whatever a submission returns (200, 404 or 500 after some of
    its writes), it keeps one Progress record per (user, topic) and every
    mastery and smoothing factor in [[0, 1]]. *)
Theorem submit_keeps_store_invariants (env : Env) (req : Request) (db db' : DB) (r : Response) :
  submit_answer env req db = (r, db') ->
  (keys_unique db -> keys_unique db') /\ (values_in_range db -> values_in_range db').
Proof.
  intros H. apply submit_prefix in H as [k ->].
  split; [apply prefix_keys_unique|apply prefix_in_range].
Qed.

(** Extra: after a successful submission, [GET /api/progress/topic/:topicId]
    reports the mastery, attempts and corrects the submission returned,
    and the stored user has the returned stats. *)
Theorem submit_read_back (env : Env) (req : Request) (db db' : DB) (tid : string)
    (isC : bool) (ca : string) (m : Q) (a c : Z) (st : Stats) :
  topicId req = JStr tid ->
  submit_answer env req db = (Ok isC ca m a c st, db') ->
  view_mastery (topic_progress db' (req_userId req) tid) = m /\
  view_attempts (topic_progress db' (req_userId req) tid) = a /\
  view_corrects (topic_progress db' (req_userId req) tid) = c /\
  exists u', find_user db' (req_userId req) = Some u' /\ stats u' = st.
Proof.
  intros Ht H. apply submit_ok_inv in H
    as (sname & ttitle & tid0 & qid & ua & u & Hres & _ & _ & _ & Hm & Ha & Hc & _ & Hp & Hu).
  apply resolve_found_ids in Hres. rewrite Hres in Ht. injection Ht as ->.
  unfold topic_progress. rewrite Hp. cbn [view_mastery view_attempts view_corrects].
  repeat split; try (symmetry; assumption).
  eexists. split; [exact Hu|reflexivity].
Qed.

Lemma submit_ok_attempts (env : Env) (req : Request) (db db' : DB)
    (isC : bool) (ca : string) (m : Q) (a c : Z) (st : Stats) :
  submit_answer env req db = (Ok isC ca m a c st, db') ->
  exists att, att_userId att = req_userId req /\ att_isCorrect att = isC /\
              db_attempts db' = db_attempts db ++ [att].
Proof.
  intros H. pose proof H as H'. destruct (submit_ok_cast _ _ _ _ _ _ _ _ _ _ H) as [tm Htm].
  apply submit_outcome_writes in H' as [[Hr _]|[[Hr _]|[_ Hdb]]]; try discriminate.
  apply submit_ok_inv in H as (sname & ttitle & tid & qid & ua & u & Hres & Hua & Hisc & Hu & _).
  subst db' isC. unfold planned_writes. rewrite Hres, Hua, Htm, Hu.
  destruct (find_progress db (req_userId req) tid);
    cbn [apply_writes fold_left apply_write app db_attempts].
  all: eexists; split; [|split]; [idtac|idtac|reflexivity]; reflexivity.
Qed.

(** Extra: if the user's [stats.totalAttempts] and [stats.totalCorrect]
    match the counts of their Attempt documents that [GET /api/users/stats]
    reports, they still match after a successful submission. *)
Theorem submit_keeps_stats_consistent (env : Env) (req : Request) (db db' : DB)
    (isC : bool) (ca : string) (m : Q) (a c : Z) (st : Stats) (u : User) :
  find_user db (req_userId req) = Some u ->
  Z.of_nat (v_totalAttempts (user_stats db u)) = totalAttempts (stats u) ->
  Z.of_nat (correctAttempts (user_stats db u)) = totalCorrect (stats u) ->
  submit_answer env req db = (Ok isC ca m a c st, db') ->
  exists u', find_user db' (req_userId req) = Some u' /\
    Z.of_nat (v_totalAttempts (user_stats db' u')) = totalAttempts (stats u') /\
    Z.of_nat (correctAttempts (user_stats db' u')) = totalCorrect (stats u').
Proof.
  intros Hu Ht Hc H.
  destruct (submit_ok_attempts env req db db' isC ca m a c st H) as (att & Hau & Hac & Hatt).
  apply submit_ok_inv in H as (sname & ttitle & tid & qid & ua & u0 & _ & _ & _ & Hu0 & _ & _ & _ & Hst & _ & Hu').
  rewrite Hu in Hu0. injection Hu0 as <-.
  exists {| u_id := u_id u; stats := st |}. split; [exact Hu'|].
  assert (Hid : u_id u = req_userId req) by (eapply find_user_id; eassumption).
  unfold user_stats in *. cbn [v_totalAttempts correctAttempts u_id stats] in *.
  rewrite Hatt, !filter_app. cbn [filter]. rewrite Hau, Hac, Hid, Nat.eqb_refl in *.
  rewrite !length_app. subst st. cbn [updateStreak count_answer totalAttempts totalCorrect].
  cbn [andb List.length]. split; [lia|]. destruct isC; cbn [List.length]; lia.
Qed.

(** [deleteOne] on a store with one document per key. *)
Lemma find_none_iff (f : Progress -> bool) (l : list Progress) :
  find f l = None <-> forall x, In x l -> f x = false.
Proof.
  split; [apply find_none|].
  induction l as [|x xs IH]; intros H; [reflexivity|]. cbn.
  rewrite (H x (or_introl eq_refl)). apply IH. intros y Hy. apply H. now right.
Qed.

Lemma delete_first_gone (uid : nat) (tid : string) (l : list Progress) :
  NoDup (map progress_key l) -> find (same_key uid tid) (delete_first uid tid l) = None.
Proof.
  induction l as [|p ps IH]; intros Hn; [reflexivity|].
  inversion Hn as [|? ? Hp Hps]; subst. cbn.
  destruct (same_key uid tid p) eqn:E.
  - apply find_none_iff. intros q Hq. destruct (same_key uid tid q) eqn:Eq; [|reflexivity].
    apply same_key_key in E, Eq. exfalso. apply Hp. rewrite E, <- Eq. now apply in_map.
  - cbn. rewrite E. now apply IH.
Qed.

Lemma delete_first_other (uid uid' : nat) (tid tid' : string) (l : list Progress) :
  (uid', tid') <> (uid, tid) ->
  find (same_key uid' tid') (delete_first uid tid l) = find (same_key uid' tid') l.
Proof.
  intros Hne. induction l as [|p ps IH]; [reflexivity|]. cbn.
  destruct (same_key uid tid p) eqn:E.
  - destruct (same_key uid' tid' p) eqn:E'; [|reflexivity].
    apply same_key_key in E, E'. congruence.
  - cbn. destruct (same_key uid' tid' p); [reflexivity|exact IH].
Qed.

Lemma delete_first_incl (uid : nat) (tid : string) (l : list Progress) (p : Progress) :
  In p (delete_first uid tid l) -> In p l.
Proof.
  induction l as [|q qs IH]; [intros []|]. cbn.
  destruct (same_key uid tid q); [now right|]. intros [<-|H]; [now left|right; now apply IH].
Qed.

Lemma delete_first_NoDup (uid : nat) (tid : string) (l : list Progress) :
  NoDup (map progress_key l) -> NoDup (map progress_key (delete_first uid tid l)).
Proof.
  induction l as [|p ps IH]; intros Hn; [constructor|].
  inversion Hn as [|? ? Hp Hps]; subst. cbn.
  destruct (same_key uid tid p); [exact Hps|].
  cbn. constructor; [|now apply IH].
  intros Hin. apply in_map_iff in Hin as [q [Hq Hin]]. apply Hp.
  rewrite <- Hq. apply in_map. eapply delete_first_incl; eassumption.
Qed.

(** Extra: on a store with one record per (user, topic), resetting a topic
    makes the topic route report the default progress for it, leaves every
    other (user, topic) record as it was, and keeps one record per key. *)
Theorem reset_topic_spec (db : DB) (uid : nat) (tid : string) :
  keys_unique db ->
  topic_progress (reset_topic db uid tid) uid tid = DefaultProgress /\
  (forall uid' tid', (uid', tid') <> (uid, tid) ->
     find_progress (reset_topic db uid tid) uid' tid' = find_progress db uid' tid') /\
  keys_unique (reset_topic db uid tid).
Proof.
  unfold keys_unique, topic_progress, find_progress, reset_topic. cbn [db_progress].
  intros Hk. split; [|split].
  - now rewrite delete_first_gone.
  - intros uid' tid' Hne. now apply delete_first_other.
  - now apply delete_first_NoDup.
Qed.

Import (notations) Floats.
Local Set Warnings "-inexact-float".

(** Extra: the first successful submission after a reset starts again
    from the default record (mastery 0.2, alpha 0.3): the new mastery is
    [0.3 * (isCorrect ? 1 : 0) + 0.7 * 0.2], exactly 0.44 for a correct
    answer and 0.14 for a wrong one, which the engine's doubles give as
    0.43999999999999995 and 0.13999999999999999; one attempt. *)
Theorem reset_then_submit (env : Env) (req : Request) (db db' : DB) (tid : string)
    (isC : bool) (ca : string) (m : Q) (a c : Z) (st : Stats) :
  keys_unique db -> topicId req = JStr tid ->
  submit_answer env req (reset_topic db (req_userId req) tid) = (Ok isC ca m a c st, db') ->
  m = newMastery (3 # 10) isC (2 # 10) /\
  (m == if isC then 44 # 100 else 14 # 100)%Q /\
  newMastery_double 0.3%float isC 0.2%float
    = (if isC then 0.43999999999999995 else 0.13999999999999999)%float /\
  a = 1 /\ c = (if isC then 1 else 0).
Proof.
  intros Hk Ht H. apply submit_ok_inv in H
    as (sname & ttitle & tid0 & qid & ua & u & Hres & _ & _ & _ & Hm & Ha & Hc & _).
  apply resolve_found_ids in Hres. rewrite Hres in Ht. injection Ht as ->.
  pose proof (delete_first_gone (req_userId req) tid (db_progress db) Hk) as Hd.
  unfold prior_progress, find_progress in Hm, Ha, Hc. cbn [reset_topic db_progress] in Hm, Ha, Hc.
  rewrite Hd in Hm, Ha, Hc.
  subst m a c. cbn. split; [reflexivity|].
  split; [destruct isC; reflexivity|].
  split; [destruct isC; vm_compute; reflexivity|].
  split; [reflexivity|destruct isC; reflexivity].
Qed.

Lemma db1_keys_unique : keys_unique db1.
Proof.
  unfold keys_unique. cbn. repeat constructor; cbn; intros H; repeat destruct H as [H|H]; try discriminate; exact H.
Qed.

Lemma db1_in_range : values_in_range db1.
Proof. unfold values_in_range. cbn. repeat constructor; cbn; lra. Qed.

Lemma submit_keeps_store_invariants_witness :
  let res := submit_answer env_user_save_fails req_alg2 db1 in
  res = (fst res, snd res) /\ keys_unique (snd res) /\ values_in_range (snd res).
Proof.
  cbv zeta.
  assert (E : submit_answer env_user_save_fails req_alg2 db1
              = (fst (submit_answer env_user_save_fails req_alg2 db1),
                 snd (submit_answer env_user_save_fails req_alg2 db1)))
    by apply surjective_pairing.
  destruct (submit_keeps_store_invariants _ _ _ _ _ E) as [H1 H2].
  split; [exact E|split; [exact (H1 db1_keys_unique)|exact (H2 db1_in_range)]].
Defined.

Lemma submit_frame_witness :
  let res := submit_answer env0 req_alg2 db1 in
  res = (fst res, snd res) /\
  find_progress (snd res) 2 "math_algebra" = find_progress db1 2 "math_algebra" /\
  find_progress (snd res) 1 "math_geometry" = find_progress db1 1 "math_geometry" /\
  find_user (snd res) 2 = find_user db1 2.
Proof.
  cbv zeta.
  assert (E : submit_answer env0 req_alg2 db1
              = (fst (submit_answer env0 req_alg2 db1), snd (submit_answer env0 req_alg2 db1)))
    by apply surjective_pairing.
  split; [exact E|split; [|split]].
  - apply (submit_frame _ _ _ _ _ 2 "math_algebra" E). right. discriminate.
  - apply (submit_frame _ _ _ _ _ 1 "math_geometry" E). left. discriminate.
  - apply (submit_frame _ _ _ _ _ 2 "math_algebra" E). discriminate.
Defined.

Lemma submit_succeeds_witness :
  (forall f, fails env0 f = false) /\
  resolve (subjects env0) (topicId req_alg2) (questionId req_alg2)
    = Found "B" "Mathematics" "Algebra" "math_algebra" "math_algebra_Q2" /\
  userAnswer req_alg2 = JStr "b" /\
  castNumber (timeTaken req_alg2) <> None /\
  find_user db1 (req_userId req_alg2) = Some {| u_id := 1; stats := stats0 |} /\
  values_in_range db1 /\
  Forall (fun p => progress_valid p = true) (db_progress db1) /\
  exists isC m a c st, fst (submit_answer env0 req_alg2 db1) = Ok isC "B" m a c st.
Proof.
  assert (Hf : forall f, fails env0 f = false) by reflexivity.
  assert (Hr : resolve (subjects env0) (topicId req_alg2) (questionId req_alg2)
               = Found "B" "Mathematics" "Algebra" "math_algebra" "math_algebra_Q2")
    by (vm_compute; reflexivity).
  assert (Hc : castNumber (timeTaken req_alg2) <> None) by (vm_compute; discriminate).
  assert (Hu : find_user db1 (req_userId req_alg2) = Some {| u_id := 1; stats := stats0 |})
    by reflexivity.
  assert (Hval : Forall (fun p => progress_valid p = true) (db_progress db1))
    by (repeat constructor).
  split; [exact Hf|]. split; [exact Hr|]. split; [reflexivity|]. split; [exact Hc|].
  split; [exact Hu|]. split; [exact db1_in_range|]. split; [exact Hval|].
  exact (submit_succeeds env0 req_alg2 db1 _ _ _ _ _ "b" _ Hf Hr eq_refl Hc
           eq_refl eq_refl eq_refl eq_refl eq_refl Hu db1_in_range Hval).
Defined.

Lemma submit_read_back_witness :
  submit_answer env0 req_alg2 db1
    = (Ok true "B" (newMastery (3 # 10) true (9 # 10)) 5 5 stats_ok,
       snd (submit_answer env0 req_alg2 db1)) /\
  view_mastery (topic_progress (snd (submit_answer env0 req_alg2 db1)) 1 "math_algebra")
    = newMastery (3 # 10) true (9 # 10) /\
  view_attempts (topic_progress (snd (submit_answer env0 req_alg2 db1)) 1 "math_algebra") = 5.
Proof.
  assert (E : submit_answer env0 req_alg2 db1
    = (Ok true "B" (newMastery (3 # 10) true (9 # 10)) 5 5 stats_ok,
       snd (submit_answer env0 req_alg2 db1))) by (vm_compute; reflexivity).
  destruct (submit_read_back env0 req_alg2 db1 _ "math_algebra" _ _ _ _ _ _ eq_refl E)
    as (Hm & Ha & _).
  split; [exact E|split; assumption].
Defined.

Lemma submit_keeps_stats_consistent_witness :
  find_user db1 1 = Some {| u_id := 1; stats := stats0 |} /\
  Z.of_nat (v_totalAttempts (user_stats db1 {| u_id := 1; stats := stats0 |}))
    = totalAttempts stats0 /\
  Z.of_nat (correctAttempts (user_stats db1 {| u_id := 1; stats := stats0 |}))
    = totalCorrect stats0 /\
  submit_answer env0 req_alg2 db1
    = (Ok true "B" (newMastery (3 # 10) true (9 # 10)) 5 5 stats_ok,
       snd (submit_answer env0 req_alg2 db1)) /\
  exists u', find_user (snd (submit_answer env0 req_alg2 db1)) 1 = Some u' /\
    Z.of_nat (v_totalAttempts (user_stats (snd (submit_answer env0 req_alg2 db1)) u'))
      = totalAttempts (stats u') /\
    Z.of_nat (correctAttempts (user_stats (snd (submit_answer env0 req_alg2 db1)) u'))
      = totalCorrect (stats u').
Proof.
  assert (E : submit_answer env0 req_alg2 db1
    = (Ok true "B" (newMastery (3 # 10) true (9 # 10)) 5 5 stats_ok,
       snd (submit_answer env0 req_alg2 db1))) by (vm_compute; reflexivity).
  assert (Hu : find_user db1 (req_userId req_alg2) = Some {| u_id := 1; stats := stats0 |})
    by reflexivity.
  assert (Ht : Z.of_nat (v_totalAttempts (user_stats db1 {| u_id := 1; stats := stats0 |}))
               = totalAttempts stats0) by reflexivity.
  assert (Hc : Z.of_nat (correctAttempts (user_stats db1 {| u_id := 1; stats := stats0 |}))
               = totalCorrect stats0) by reflexivity.
  split; [exact Hu|split; [exact Ht|split; [exact Hc|split; [exact E|]]]].
  exact (submit_keeps_stats_consistent env0 req_alg2 db1 _ _ _ _ _ _ _ _ Hu Ht Hc E).
Defined.

Lemma reset_topic_spec_witness :
  keys_unique db1 /\
  topic_progress db1 1 "math_algebra" = StoredProgress prog_algebra /\
  topic_progress (reset_topic db1 1 "math_algebra") 1 "math_algebra" = DefaultProgress /\
  find_progress (reset_topic db1 1 "math_algebra") 2 "math_algebra" = Some prog_weak.
Proof.
  destruct (reset_topic_spec db1 1 "math_algebra" db1_keys_unique) as (H1 & H2 & _).
  split; [exact db1_keys_unique|split; [reflexivity|split; [exact H1|]]].
  rewrite (H2 2%nat "math_algebra"%string); [reflexivity|discriminate].
Defined.

Lemma reset_then_submit_witness :
  keys_unique db1 /\
  submit_answer env0 req_alg2 (reset_topic db1 1 "math_algebra")
    = (Ok true "B" (newMastery (3 # 10) true (2 # 10)) 1 1 stats_ok,
       snd (submit_answer env0 req_alg2 (reset_topic db1 1 "math_algebra"))) /\
  (newMastery (3 # 10) true (2 # 10) == 44 # 100)%Q.
Proof.
  assert (E : submit_answer env0 req_alg2 (reset_topic db1 (req_userId req_alg2) "math_algebra")
    = (Ok true "B" (newMastery (3 # 10) true (2 # 10)) 1 1 stats_ok,
       snd (submit_answer env0 req_alg2 (reset_topic db1 1 "math_algebra"))))
    by (vm_compute; reflexivity).
  split; [exact db1_keys_unique|split; [exact E|]].
  exact (proj1 (proj2 (reset_then_submit env0 req_alg2 _ _ "math_algebra" _ _ _ _ _ _
                  db1_keys_unique eq_refl E))).
Defined.

End StoreProps.

Module ProgressProps.

Lemma fold_mastery_shift (l : list Progress) (a : Q) :
  (fold_left (fun acc p => acc + mastery p) l a
   == a + fold_left (fun acc p => acc + mastery p) l 0)%Q.
Proof.
  revert a. induction l as [|p ps IH]; intros a; cbn [fold_left]; [ring|].
  rewrite (IH (a + mastery p)%Q), (IH (0 + mastery p)%Q). ring.
Qed.

Lemma fold_mastery_cons (p : Progress) (l : list Progress) :
  (fold_left (fun acc p => acc + mastery p) (p :: l) 0
   == mastery p + fold_left (fun acc p => acc + mastery p) l 0)%Q.
Proof. cbn [fold_left]. rewrite fold_mastery_shift. ring. Qed.

Lemma fold_mastery_bounds (l : list Progress) :
  (forall p, In p l -> 0 <= mastery p <= 1)%Q ->
  (0 <= fold_left (fun acc p => acc + mastery p) l 0 <= inject_Z (Z.of_nat (List.length l)))%Q.
Proof.
  induction l as [|p ps IH]; intros H; [split; apply Qle_refl|].
  rewrite fold_mastery_cons. cbn [List.length]. rewrite Nat2Z.inj_succ, <- Z.add_1_r, inject_Z_plus.
  destruct (H p (or_introl eq_refl)).
  destruct IH as [IH1 IH2]; [intros q Hq; apply H; now right|].
  change (inject_Z 1) with 1%Q. lra.
Qed.

Lemma fold_mastery_perm (l l' : list Progress) :
  Permutation l l' ->
  (fold_left (fun acc p => acc + mastery p) l 0 == fold_left (fun acc p => acc + mastery p) l' 0)%Q.
Proof.
  induction 1 as [|p l l' _ IH|p q l|l l' l'' _ IH1 _ IH2].
  - reflexivity.
  - rewrite !fold_mastery_cons, IH. reflexivity.
  - rewrite !fold_mastery_cons. ring.
  - now rewrite IH1.
Qed.

(** Extra: [averageMastery] of [GET /api/progress/my-progress] is in
    [[0, 1]] when the stored masteries are, and does not depend on the
    order in which the records come back. *)
Theorem my_progress_average (db : DB) (uid : nat) :
  values_in_range db ->
  (0 <= snd (my_progress_summary db uid) <= 1)%Q /\
  (forall l, Permutation l (user_progress db uid) ->
     averageMastery l == snd (my_progress_summary db uid))%Q.
Proof.
  intros Hv. unfold my_progress_summary. cbn [snd]. split.
  - unfold averageMastery.
    assert (Hb : forall p, In p (user_progress db uid) -> (0 <= mastery p <= 1)%Q).
    { intros p Hp. unfold user_progress in Hp. apply filter_In in Hp as [Hp _].
      unfold values_in_range in Hv. rewrite Forall_forall in Hv. apply (Hv p Hp). }
    destruct (fold_mastery_bounds _ Hb) as [H0 H1].
    destruct (List.length (user_progress db uid)) as [|len] eqn:E; [lra|].
    cbv zeta.
    assert (Hpos : (0 < inject_Z (Z.of_nat (S len)))%Q).
    { change 0%Q with (inject_Z 0). rewrite <- Zlt_Qlt. lia. }
    split.
    + apply Qle_shift_div_l; [exact Hpos|]. lra.
    + apply Qle_shift_div_r; [exact Hpos|]. lra.
  - intros l Hl. unfold averageMastery. rewrite (Permutation_length Hl).
    destruct (List.length (user_progress db uid)); [reflexivity|].
    cbv zeta. rewrite (fold_mastery_perm _ _ Hl). reflexivity.
Qed.

Lemma my_progress_average_witness :
  values_in_range db1 /\ (0 <= snd (my_progress_summary db1 1) <= 1)%Q /\
  (snd (my_progress_summary db1 1) == 11 # 20)%Q.
Proof.
  split; [exact StoreProps.db1_in_range|split].
  - exact (proj1 (my_progress_average db1 1 StoreProps.db1_in_range)).
  - vm_compute. reflexivity.
Defined.

End ProgressProps.

(** ** Orderings: permutation facts of the sort, and split sorted lists *)
Module OrderFacts.

Section Perm.
Context {A : Type} (cmp : A -> A -> Q).

Lemma insert_perm (x : A) (l : list A) : Permutation (insert cmp x l) (x :: l).
Proof.
  induction l as [|y ys IH]; cbn [insert]; [reflexivity|].
  destruct (Qlt_bool (cmp x y) 0); [reflexivity|].
  rewrite IH. apply perm_swap.
Qed.

Lemma fold_insert_perm (l acc : list A) :
  Permutation (fold_left (fun acc x => insert cmp x acc) l acc) (l ++ acc).
Proof.
  revert acc. induction l as [|x xs IH]; intros acc; cbn [fold_left app]; [reflexivity|].
  rewrite IH, insert_perm. symmetry. apply Permutation_middle.
Qed.

Lemma sort_perm (l : list A) : Permutation (sort cmp l) l.
Proof. unfold sort. rewrite fold_insert_perm. now rewrite app_nil_r. Qed.
End Perm.

Lemma in_firstn_incl {A} (l : list A) (k : nat) (x : A) : In x (firstn k l) -> In x l.
Proof. intros H. rewrite <- (firstn_skipn k l). apply in_or_app. now left. Qed.

Lemma in_skipn_incl {A} (l : list A) (k : nat) (x : A) : In x (skipn k l) -> In x l.
Proof. intros H. rewrite <- (firstn_skipn k l). apply in_or_app. now right. Qed.

Lemma strongly_sorted_split {A} (R : A -> A -> Prop) (l : list A) (k : nat) (x y : A) :
  StronglySorted R l -> In x (firstn k l) -> In y (skipn k l) -> R x y.
Proof.
  revert k. induction l as [|a l IH]; intros k Hs Hx Hy.
  - destruct k; destruct Hx.
  - destruct k as [|k]; [destruct Hx|]. cbn [firstn skipn] in *.
    apply StronglySorted_inv in Hs as [Hs Hf]. destruct Hx as [<-|Hx].
    + rewrite Forall_forall in Hf. apply Hf. eapply in_skipn_incl. exact Hy.
    + exact (IH k Hs Hx Hy).
Qed.

Lemma in_firstn_or_skipn {A} (l : list A) (k : nat) (x : A) :
  In x l -> ~ In x (firstn k l) -> In x (skipn k l).
Proof.
  intros Hx Hn. rewrite <- (firstn_skipn k l) in Hx. apply in_app_or in Hx as [Hx|Hx];
    [contradiction|exact Hx].
Qed.

(** [order_by key] orders ascending by [key]. *)
Lemma order_by_perm (key : Progress -> Q) (l : list Progress) : Permutation (order_by key l) l.
Proof. apply sort_perm. Qed.

Lemma order_by_sorted (key : Progress -> Q) (l : list Progress) :
  Sorted (fun a b => (key a <= key b)%Q) (order_by key l).
Proof.
  unfold order_by.
  assert (E : forall l acc, fold_left (fun acc x => insert (fun a b => (key a - key b)%Q) x acc) l acc
                        = fold_left (fun acc x => insert (SortFacts.key_cmp (fun p => - key p)%Q) x acc) l acc).
  { assert (Ei : forall x acc, insert (fun a b => (key a - key b)%Q) x acc
                               = insert (SortFacts.key_cmp (fun p => - key p)%Q) x acc).
    { intros x acc. induction acc as [|y ys IH]; cbn [insert]; [reflexivity|].
      unfold SortFacts.key_cmp.
      replace (Qlt_bool (- key y - - key x) 0) with (Qlt_bool (key x - key y) 0).
      - destruct (Qlt_bool (key x - key y) 0); [reflexivity|]. now rewrite IH.
      - unfold Qlt_bool. f_equal. apply Qleb_comp; [reflexivity|ring]. }
    intros l0. induction l0 as [|x xs IH]; intros acc; cbn [fold_left]; [reflexivity|].
    rewrite Ei. apply IH. }
  unfold sort. rewrite E. fold (sort (SortFacts.key_cmp (fun p => - key p)%Q) l).
  pose proof (SortFacts.sort_sorted (fun p => - key p)%Q l) as Hs.
  unfold SortFacts.desc in Hs.
  induction Hs as [|a l0 Hs IH Hh]; constructor; [exact IH|].
  destruct Hh; constructor. lra.
Qed.

End OrderFacts.

(** ** The review lists *)
Module ReviewProps.
Import OrderFacts.

Lemma weak_filter_spec (uid : nat) (p : Progress) :
  weak_filter uid p = true <-> p_userId p = uid /\ (mastery p < 1 # 2)%Q /\ 3 <= attempts p.
Proof.
  unfold weak_filter. rewrite !andb_true_iff, Nat.eqb_eq, SortFacts.Qlt_bool_iff, Z.leb_le.
  tauto.
Qed.

Lemma ready_filter_spec (uid : nat) (ago : Z) (p : Progress) :
  ready_filter uid ago p = true <->
  p_userId p = uid /\ (1 # 2 <= mastery p)%Q /\ exists t, lastReview p = Some t /\ t < ago.
Proof.
  unfold ready_filter. rewrite !andb_true_iff, Nat.eqb_eq, Qle_bool_iff.
  destruct (lastReview p) as [t|].
  - rewrite Z.ltb_lt. split.
    + intros [[H1 H2] H3]. repeat split; try assumption. now exists t.
    + intros (H1 & H2 & t' & Ht & H3). injection Ht as <-. tauto.
  - split; [intros [_ H]; discriminate H|]. intros (_ & _ & t' & Ht & _). discriminate Ht.
Qed.

Lemma in_limited (order : list Progress -> list Progress) (f : Progress -> bool)
    (l : list Progress) (p : Progress) :
  Permutation (order (filter f l)) (filter f l) ->
  In p (firstn 5 (order (filter f l))) -> In p l /\ f p = true.
Proof.
  intros Hperm Hin. apply in_firstn_incl in Hin.
  apply (Permutation_in _ Hperm) in Hin. now apply filter_In in Hin.
Qed.

Lemma limited_length (order : list Progress -> list Progress) (l : list Progress) :
  Permutation (order l) l -> List.length (firstn 5 (order l)) = Nat.min 5 (List.length l).
Proof. intros H. rewrite length_firstn. now rewrite (Permutation_length H). Qed.

(** Extra: [GET /api/recommendations/weak-areas] returns min(5, matches)
    of the user's records, each with mastery below 0.5 and at least 3
    attempts; when the database sorts by mastery ascending, none of the
    matching records left out has a lower mastery than one returned. *)
Theorem weak_areas_spec (order : list Progress -> list Progress) (db : DB) (uid : nat) :
  let l := filter (weak_filter uid) (db_progress db) in
  Permutation (order l) l ->
  List.length (weak_areas order db uid) = Nat.min 5 (List.length l) /\
  (forall p, In p (weak_areas order db uid) ->
     In p (db_progress db) /\ p_userId p = uid /\ (mastery p < 1 # 2)%Q /\ 3 <= attempts p) /\
  (Sorted (fun a b => (mastery a <= mastery b)%Q) (order l) ->
   forall p q, In p (weak_areas order db uid) -> In q l -> ~ In q (weak_areas order db uid) ->
   (mastery p <= mastery q)%Q).
Proof.
  intros l Hperm. split; [now apply limited_length|]. split.
  - intros p Hp. destruct (in_limited order _ _ p Hperm Hp) as [Hin Hf].
    apply weak_filter_spec in Hf. tauto.
  - intros Hs p q Hp Hq Hn. unfold weak_areas in *. fold l in Hp, Hn.
    apply Sorted_StronglySorted in Hs; [|intros a b c Hab Hbc; lra].
    apply (strongly_sorted_split _ _ 5 p q Hs Hp).
    apply in_firstn_or_skipn; [|exact Hn]. apply (Permutation_in _ (Permutation_sym Hperm)). exact Hq.
Qed.

(** Extra: [GET /api/recommendations/ready-for-review] returns min(5,
    matches) of the user's records, each with mastery at least 0.5 and a
    [lastReview] more than seven days before now (never-reviewed records
    never appear); none of them is also a weak area. *)
Theorem ready_for_review_spec (order order' : list Progress -> list Progress)
    (db : DB) (uid : nat) (now : Z) :
  let l := filter (ready_filter uid (now - 7 * 24 * 60 * 60 * 1000)) (db_progress db) in
  let w := filter (weak_filter uid) (db_progress db) in
  Permutation (order l) l -> Permutation (order' w) w ->
  List.length (ready_for_review order db uid now) = Nat.min 5 (List.length l) /\
  (forall p, In p (ready_for_review order db uid now) ->
     In p (db_progress db) /\ p_userId p = uid /\ (1 # 2 <= mastery p)%Q /\
     exists t, lastReview p = Some t /\ t < now - 604800000) /\
  (forall p, In p (ready_for_review order db uid now) -> ~ In p (weak_areas order' db uid)).
Proof.
  intros l w Hperm Hperm'. split; [now apply limited_length|].
  assert (Hr : forall p, In p (ready_for_review order db uid now) ->
     In p (db_progress db) /\ p_userId p = uid /\ (1 # 2 <= mastery p)%Q /\
     exists t, lastReview p = Some t /\ t < now - 604800000).
  { intros p Hp. destruct (in_limited order _ _ p Hperm Hp) as [Hin Hf].
    apply ready_filter_spec in Hf. tauto. }
  split; [exact Hr|].
  intros p Hp Hw. destruct (Hr p Hp) as (_ & _ & Hm & _).
  destruct (in_limited order' _ _ p Hperm' Hw) as [_ Hf].
  apply weak_filter_spec in Hf. lra.
Qed.

(** Extra: after a successful submission on a topic, that topic is not
    ready for review for the user at any time up to seven days later. *)
Theorem answered_not_ready (env : Env) (req : Request) (db db' : DB) (tid : string)
    (isC : bool) (ca : string) (m : Q) (a c : Z) (st : Stats)
    (order : list Progress -> list Progress) (now' : Z) :
  keys_unique db -> topicId req = JStr tid ->
  submit_answer env req db = (Ok isC ca m a c st, db') ->
  now' <= now env + 7 * 24 * 60 * 60 * 1000 ->
  let l := filter (ready_filter (req_userId req) (now' - 7 * 24 * 60 * 60 * 1000))
                  (db_progress db') in
  Permutation (order l) l ->
  forall p, In p (ready_for_review order db' (req_userId req) now') -> p_topicId p <> tid.
Proof.
  intros Hk Ht H Hnow l Hperm p Hp Hpt.
  assert (Hk' : keys_unique db').
  { destruct (StoreProps.submit_prefix env req db db' _ H) as [k ->].
    now apply StoreProps.prefix_keys_unique. }
  apply SubmitFacts.submit_ok_inv in H
    as (sname & ttitle & tid0 & qid & ua & u & Hres & _ & _ & _ & _ & _ & _ & _ & Hfp & _).
  apply StoreProps.resolve_found_ids in Hres. rewrite Hres in Ht. injection Ht as ->.
  destruct (in_limited order _ _ p Hperm Hp) as [Hin Hf].
  apply ready_filter_spec in Hf as (Hu & _ & t & Hlr & Hlt).
  assert (Hkey : progress_key p = (req_userId req, tid)) by (unfold progress_key; congruence).
  pose proof (StoreProps.find_key_unique _ _ p _ Hk' Hin Hkey) as Hfind.
  unfold find_progress in Hfp. rewrite Hfind in Hfp. injection Hfp as ->.
  cbn [update_progress lastReview] in Hlr. injection Hlr as <-. lia.
Qed.

Lemma weak_areas_spec_witness :
  let l := filter (weak_filter 2) (db_progress db1) in
  Permutation (order_by mastery l) l /\
  Sorted (fun a b => (mastery a <= mastery b)%Q) (order_by mastery l) /\
  weak_areas (order_by mastery) db1 2 = [prog_weak] /\
  List.length (weak_areas (order_by mastery) db1 2) = Nat.min 5 (List.length l).
Proof.
  cbv zeta.
  split; [apply order_by_perm|split; [apply order_by_sorted|split; [vm_compute; reflexivity|]]].
  exact (proj1 (weak_areas_spec (order_by mastery) db1 2 (order_by_perm mastery _))).
Defined.

Lemma ready_for_review_spec_witness :
  ready_for_review (order_by review_key) db1 1 t0 = [prog_algebra] /\
  (forall p, In p (ready_for_review (order_by review_key) db1 1 t0) ->
     ~ In p (weak_areas (order_by mastery) db1 1)).
Proof.
  split; [vm_compute; reflexivity|].
  exact (proj2 (proj2 (ready_for_review_spec (order_by review_key) (order_by mastery) db1 1 t0
                         (order_by_perm review_key _) (order_by_perm mastery _)))).
Defined.

Lemma answered_not_ready_witness :
  In prog_algebra (ready_for_review (order_by review_key) db1 1 t0) /\
  submit_answer env0 req_alg2 db1
    = (Ok true "B" (newMastery (3 # 10) true (9 # 10)) 5 5 stats_ok,
       snd (submit_answer env0 req_alg2 db1)) /\
  forall p, In p (ready_for_review (order_by review_key) (snd (submit_answer env0 req_alg2 db1))
                    (req_userId req_alg2) t0) ->
    p_topicId p <> "math_algebra"%string.
Proof.
  assert (E : submit_answer env0 req_alg2 db1
    = (Ok true "B" (newMastery (3 # 10) true (9 # 10)) 5 5 stats_ok,
       snd (submit_answer env0 req_alg2 db1))) by (vm_compute; reflexivity).
  split; [vm_compute; left; reflexivity|split; [exact E|]].
  apply (answered_not_ready env0 req_alg2 db1 _ "math_algebra" _ _ _ _ _ _ (order_by review_key) t0
           StoreProps.db1_keys_unique eq_refl E).
  - vm_compute. discriminate.
  - apply order_by_perm.
Defined.

End ReviewProps.

(** ** Recommendation ranking and score ranges *)
Module RankingProps.
Import SortFacts RecommendProps OrderFacts.

Lemma filter_length_le {A} (f : A -> bool) (l : list A) : (List.length (filter f l) <= List.length l)%nat.
Proof. induction l as [|x xs IH]; cbn; [lia|]. destruct (f x); cbn; lia. Qed.

Lemma progressMap_get_in (up : list Progress) (tid : string) (p : Progress) :
  progressMap_get up tid = Some p -> In p up.
Proof. unfold progressMap_get. intros H. apply find_some in H as [H _]. now apply in_rev. Qed.

Lemma ratio_range (c t : Z) :
  0 <= c <= t -> 0 < t -> (0 <= inject_Z c / inject_Z t * 100 <= 100)%Q.
Proof.
  intros [Hc0 Hct] Ht.
  assert (Hpos : (0 < inject_Z t)%Q) by (change 0%Q with (inject_Z 0); rewrite <- Zlt_Qlt; lia).
  assert (H0 : (0 <= inject_Z c)%Q) by (change 0%Q with (inject_Z 0); rewrite <- Zle_Qle; lia).
  assert (H1 : (inject_Z c <= inject_Z t)%Q) by (rewrite <- Zle_Qle; lia).
  assert (Hq0 : (0 <= inject_Z c / inject_Z t)%Q) by (apply Qle_shift_div_l; [exact Hpos|lra]).
  assert (Hq1 : (inject_Z c / inject_Z t <= 1)%Q) by (apply Qle_shift_div_r; [exact Hpos|lra]).
  set (q := (inject_Z c / inject_Z t)%Q) in *. split; lra.
Qed.

(** Extra: [GET /api/recommendations] returns part of the topic scores,
    and every returned score is at least every left-out score; when [n]
    parses to at least the number of topics, every topic comes back. *)
Theorem recommendations_top (subjects : list Subject) (userProgress : list Progress)
    (userAttempts : list Attempt) (now : Z) (n : option string) :
  let scores := map (score_topic now userProgress (firstn 100 userAttempts))
                    (getAllTopicIds subjects) in
  let out := recommendations subjects userProgress userAttempts now n in
  (exists rest, Permutation (out ++ rest) scores /\
     forall s t, In s out -> In t rest -> (score t <= score s)%Q) /\
  (forall k, parseInt (match n with Some s => s | None => "3"%string end) = Some k ->
     Z.of_nat (List.length scores) <= k -> Permutation out scores).
Proof.
  intros scores out.
  set (ranked := sort by_score_desc scores).
  assert (Hout : out = slice0 ranked (parseInt (match n with Some s => s | None => "3"%string end)))
    by reflexivity.
  assert (Hperm : Permutation ranked scores) by apply sort_perm.
  assert (Hs : StronglySorted (desc score) ranked).
  { apply Sorted_StronglySorted; [exact (desc_trans score)|].
    unfold ranked. change by_score_desc with (key_cmp score). apply sort_sorted. }
  split.
  - rewrite Hout. unfold slice0. cbv zeta.
    set (j := Z.to_nat _). exists (skipn j ranked). split.
    + now rewrite firstn_skipn.
    + intros s t Hsi Hti. exact (strongly_sorted_split _ _ j s t Hs Hsi Hti).
  - intros k Hk Hle. rewrite Hout, Hk. unfold slice0. cbv zeta.
    rewrite (Permutation_length Hperm).
    replace (k <? 0) with false by (symmetry; apply Z.ltb_ge; lia).
    rewrite firstn_all2; [exact Hperm|]. rewrite (Permutation_length Hperm). lia.
Qed.

(** Extra: with masteries in [[0, 1]] and no review date in the future,
    a topic scores between 0 and 2.3; [recentPerformance] is null exactly
    when the topic has no recent attempt, and otherwise lies in [[0, 100]]. *)
Theorem score_topic_ranges (now : Z) (userProgress : list Progress) (recent : list Attempt)
    (topic : TopicInfo) :
  (forall p, In p userProgress ->
     (0 <= mastery p <= 1)%Q /\ forall t, lastReview p = Some t -> t <= now) ->
  let sc := score_topic now userProgress recent topic in
  let topicAttempts := filter (fun a => String.eqb (att_topicId a) (ti_topicId topic)) recent in
  (0 <= score sc <= 23 # 10)%Q /\
  (recentPerformance sc = None <-> topicAttempts = []) /\
  (forall v, recentPerformance sc = Some v -> (0 <= v <= 100)%Q).
Proof.
  intros Hup sc topicAttempts.
  assert (Hm : (0 <= match progressMap_get userProgress (ti_topicId topic) with
                     | Some p => mastery p | None => 2 # 10 end <= 1)%Q /\
               (1 <= recencyFactor (daysSince now (match progressMap_get userProgress (ti_topicId topic) with
                                                   | Some p => lastReview p | None => None end)) <= 2)%Q).
  { destruct (progressMap_get userProgress (ti_topicId topic)) as [p|] eqn:E.
    - apply progressMap_get_in in E. destruct (Hup p E) as [Hp Hl].
      split; [exact Hp|]. apply recencyFactor_range, daysSince_nonneg. exact Hl.
    - split; [lra|]. apply recencyFactor_range. unfold daysSince. lra. }
  split.
  { unfold sc. rewrite score_topic_eq. cbv zeta.
    destruct Hm as [[Hm0 Hm1] [Hr1 Hr2]].
    set (m := match progressMap_get _ _ with Some p => mastery p | None => 2 # 10 end) in *.
    set (rf := recencyFactor _) in *.
    assert (H0 : (0 <= (1 - m) * rf)%Q) by (apply Qmult_le_0_compat; lra).
    assert (H1 : ((1 - m) * rf <= 1 * rf)%Q) by (apply Qmult_le_compat_r; lra).
    destruct (strugglingBonus_spec
                (Z.of_nat (List.length (filter att_isCorrect
                   (firstn 5 (filter (fun a => String.eqb (att_topicId a) (ti_topicId topic)) recent)))))
                (Z.min (Z.of_nat (List.length
                   (filter (fun a => String.eqb (att_topicId a) (ti_topicId topic)) recent))) 5))
      as [[E _]|[E _]]; rewrite E; split; lra. }
  assert (Hrp : recentPerformance sc
                = if 0 <? Z.min (Z.of_nat (List.length topicAttempts)) 5
                  then Some (inject_Z (Z.of_nat (List.length (filter att_isCorrect (firstn 5 topicAttempts))))
                             / inject_Z (Z.min (Z.of_nat (List.length topicAttempts)) 5) * 100)%Q
                  else None) by reflexivity.
  split.
  - rewrite Hrp. destruct (0 <? _) eqn:E.
    + apply Z.ltb_lt, total_pos in E. split; [discriminate|contradiction].
    + split; [intros _|reflexivity]. apply Z.ltb_ge in E.
      destruct topicAttempts; [reflexivity|]. cbn [List.length] in E. lia.
  - intros v. rewrite Hrp. destruct (0 <? _) eqn:E; [|discriminate].
    apply Z.ltb_lt in E.
    assert (Hc : (Z.of_nat (List.length (filter att_isCorrect (firstn 5 topicAttempts)))
                  <= Z.min (Z.of_nat (List.length topicAttempts)) 5)).
    { pose proof (filter_length_le att_isCorrect (firstn 5 topicAttempts)) as H.
      rewrite length_firstn in H. lia. }
    intros Hv. injection Hv as <-. apply ratio_range; [split; [lia|exact Hc]|exact E].
Qed.

Lemma recommendations_top_witness :
  parseInt "5" = Some 5 /\
  Permutation (recommendations bank [] [] t0 (Some "5"%string))
              (map (score_topic t0 [] (firstn 100 [])) (getAllTopicIds bank)).
Proof.
  split; [reflexivity|].
  apply (proj2 (recommendations_top bank [] [] t0 (Some "5"%string)) 5); [reflexivity|].
  vm_compute. discriminate.
Defined.

Lemma score_topic_ranges_witness :
  (forall p, In p [prog_geometry] ->
     (0 <= mastery p <= 1)%Q /\ forall t, lastReview p = Some t -> t <= t0) /\
  (0 <= score (score_topic t0 [prog_geometry] [] topic_geometry) <= 23 # 10)%Q.
Proof.
  assert (H : forall p, In p [prog_geometry] ->
     (0 <= mastery p <= 1)%Q /\ forall t, lastReview p = Some t -> t <= t0).
  { intros p [<-|[]]. split; [split; vm_compute; discriminate|]. intros t Ht. injection Ht as <-.
    vm_compute. discriminate. }
  split; [exact H|].
  exact (proj1 (score_topic_ranges t0 [prog_geometry] [] topic_geometry H)).
Defined.

End RankingProps.

(** ** [GET /api/users/stats] *)
Module UserStatsProps.

Lemma filter_and_length {A} (f g : A -> bool) (l : list A) :
  (List.length (filter (fun x => f x && g x) l) <= List.length (filter f l))%nat.
Proof. induction l as [|x xs IH]; cbn; [lia|]. destruct (f x), (g x); cbn; lia. Qed.

Lemma Math_round_range (x : Q) : (0 <= x <= 100)%Q -> 0 <= Math_round x <= 100.
Proof.
  intros [H0 H1]. unfold Math_round. split.
  - change 0 with (Qfloor (0 + (1 # 2))). apply Qfloor_resp_le. lra.
  - change 100 with (Qfloor (100 + (1 # 2))). apply Qfloor_resp_le. lra.
Qed.

(** Extra: [GET /api/users/stats] reports at most as many correct as total
    attempts and an [overallAccuracy] in [[0, 100]]: 0 with no attempt and
    100 when every attempt is correct. *)
Theorem user_stats_accuracy (db : DB) (user : User) :
  let v := user_stats db user in
  (correctAttempts v <= v_totalAttempts v)%nat /\
  0 <= overallAccuracy v <= 100 /\
  (v_totalAttempts v = 0%nat -> overallAccuracy v = 0) /\
  ((0 < v_totalAttempts v)%nat -> correctAttempts v = v_totalAttempts v -> overallAccuracy v = 100).
Proof.
  intros v. unfold v, user_stats. cbn [correctAttempts v_totalAttempts overallAccuracy].
  set (t := List.length (filter (fun a => Nat.eqb (att_userId a) (u_id user)) (db_attempts db))).
  set (c := List.length (filter (fun a => Nat.eqb (att_userId a) (u_id user) && att_isCorrect a)
                                (db_attempts db))).
  assert (Hct : (c <= t)%nat) by apply filter_and_length.
  split; [exact Hct|]. split; [|split].
  - apply Math_round_range. destruct (0 <? t)%nat eqn:E; [|lra].
    apply Nat.ltb_lt in E. apply RankingProps.ratio_range; lia.
  - intros Ht. rewrite Ht. reflexivity.
  - intros Ht Hc. rewrite Hc. apply Nat.ltb_lt in Ht. rewrite Ht.
    assert (Hpos : ~ (inject_Z (Z.of_nat t) == 0)%Q)
      by (change 0%Q with (inject_Z 0); rewrite inject_Z_injective; apply Nat.ltb_lt in Ht; lia).
    assert (Hq : (inject_Z (Z.of_nat t) / inject_Z (Z.of_nat t) == 1)%Q) by (field; exact Hpos).
    unfold Math_round. rewrite Hq. reflexivity.
Qed.

Lemma user_stats_accuracy_witness :
  (0 < v_totalAttempts (user_stats db_ok {| u_id := 1; stats := stats_ok |}))%nat /\
  correctAttempts (user_stats db_ok {| u_id := 1; stats := stats_ok |})
    = v_totalAttempts (user_stats db_ok {| u_id := 1; stats := stats_ok |}) /\
  overallAccuracy (user_stats db_ok {| u_id := 1; stats := stats_ok |}) = 100.
Proof.
  assert (H1 : (0 < v_totalAttempts (user_stats db_ok {| u_id := 1; stats := stats_ok |}))%nat)
    by (vm_compute; lia).
  assert (H2 : correctAttempts (user_stats db_ok {| u_id := 1; stats := stats_ok |})
               = v_totalAttempts (user_stats db_ok {| u_id := 1; stats := stats_ok |}))
    by (vm_compute; reflexivity).
  split; [exact H1|split; [exact H2|]].
  exact (proj2 (proj2 (proj2 (user_stats_accuracy db_ok {| u_id := 1; stats := stats_ok |}))) H1 H2).
Defined.

End UserStatsProps.

(** ** The quiz topic route and the submission together *)
Module QuizSubmitProps.
Import QuizProps StoreProps.



End QuizSubmitProps.
